(** * The RRD time-range query of jarmon, embedded in Rocq

    This development follows [jarmon.RrdQuery.prototype.getData] and
    [jarmon.RrdQueryRemote] (src/jarmon/jarmon.js) and the older
    [jrrd.RrdQueryRemote] (src/jrrd.js).

    - JavaScript numbers are exact rationals ([Qc]) extended with [NaN];
      [%] is the truncating remainder of JavaScript.
    - The parsed RRD file (javascriptrrd's RRDFile) is a record of its
      accessors.
    - [getData] threads the JavaScript global object, because it assigns
      a variable it never declares, and returns a value or an exception. *)

From Stdlib Require Import ZArith QArith Qcanon Qround Lia.
From stdpp Require Import base tactics option list strings gmap.

Local Open Scope Z_scope.

(** ** JavaScript numbers *)

Module JsNum.

Inductive num : Type :=
  | NaN
  | Fin (q : Qc).

Definition of_Z (z : Z) : num := Fin (Q2Qc (inject_Z z)).

Definition lift2 (f : Qc -> Qc -> Qc) (a b : num) : num :=
  match a, b with
  | Fin x, Fin y => Fin (f x y)
  | _, _ => NaN
  end.

Definition add : num -> num -> num := lift2 Qcplus.
Definition sub : num -> num -> num := lift2 Qcminus.
Definition mul : num -> num -> num := lift2 Qcmult.

Definition Qc_is_zero (q : Qc) : bool := Z.eqb (Qnum q) 0.

(** [a / b]. The divisors of the program are the literal 1000 and a step
    that has passed the [!step] test, so the infinities of a division by
    zero are outside the model: it yields [NaN]. *)
Definition div (a b : num) : num :=
  match a, b with
  | Fin x, Fin y => if Qc_is_zero y then NaN else Fin (Qcdiv x y)
  | _, _ => NaN
  end.

(** Rounding towards zero. *)
Definition Qctrunc (q : Qc) : Z := Z.quot (Qnum q) (Zpos (Qden q)).

(** [a % b]: the remainder has the sign of the dividend; [x % 0] is NaN. *)
Definition rem (a b : num) : num :=
  match a, b with
  | Fin x, Fin y =>
      if Qc_is_zero y then NaN
      else Fin (Qcminus x (Qcmult y (Q2Qc (inject_Z (Qctrunc (Qcdiv x y))))))
  | _, _ => NaN
  end.

Definition Qcleb (x y : Qc) : bool := Qle_bool x y.
Definition Qcltb (x y : Qc) : bool := negb (Qle_bool y x).

(** Relational operators: every comparison with NaN is false. *)
Definition le (a b : num) : bool :=
  match a, b with Fin x, Fin y => Qcleb x y | _, _ => false end.
Definition lt (a b : num) : bool :=
  match a, b with Fin x, Fin y => Qcltb x y | _, _ => false end.
Definition ge (a b : num) : bool := le b a.

(** [Math.max] and [Math.min]: NaN as soon as one argument is NaN. *)
Definition max (a b : num) : num :=
  match a, b with
  | Fin x, Fin y => if Qcleb x y then Fin y else Fin x
  | _, _ => NaN
  end.
Definition min (a b : num) : num :=
  match a, b with
  | Fin x, Fin y => if Qcleb x y then Fin x else Fin y
  | _, _ => NaN
  end.

(** Truthiness of a number: [0] and [NaN] are falsy. *)
Definition truthy (a : num) : bool :=
  match a with NaN => false | Fin x => negb (Qc_is_zero x) end.

Definition is_integer (a : num) : Prop := exists z : Z, a = of_Z z.

End JsNum.

Import JsNum.

#[global] Arguments add : simpl never.
#[global] Arguments sub : simpl never.
#[global] Arguments mul : simpl never.
#[global] Arguments div : simpl never.
#[global] Arguments rem : simpl never.
#[global] Arguments le : simpl never.
#[global] Arguments lt : simpl never.
#[global] Arguments max : simpl never.
#[global] Arguments min : simpl never.
#[global] Arguments of_Z : simpl never.

(** ** The parsed RRD file *)

(** Modelled from the spec: javascriptrrd's RRDFile, RRDRRA and RRDDS are
    not in src/. An archive exposes its consolidation function name, its
    step in seconds, its row count and a cell accessor that yields a
    number or the not-a-number marker; the row reaches the accessor as
    the JavaScript number the caller computed. *)
Record RRA : Type := {
  getCFName : string;
  getStep : Z;
  getNrRows : Z;
  getEl : num -> Z -> num
}.

Record DS : Type := {
  getName : string;
  getIdx : Z
}.

Record RRDFile : Type := {
  getLastUpdate : Z;
  getMinStep : Z;
  rras : list RRA;
  dss : list DS
}.

(** JavaScript values that reach the query as arguments. *)
Inductive jsval : Type :=
  | Undefined
  | Null
  | Number (n : num).

Inductive dsid : Type :=
  | DsIdx (i : Z)
  | DsName (s : string).

(** The pieces of an error message before [join('')] glues them. *)
Inductive part : Type :=
  | Lit (s : string)
  | Val (v : jsval).

Inductive exn : Type :=
  | RangeError (msg : list part)
  | TypeError (msg : string)
  | LookupError (id : dsid).

Inductive outcome (A : Type) : Type :=
  | Return (a : A)
  | Throw (e : exn).
Arguments Return {A} a.
Arguments Throw {A} e.

Definition getNrRRAs (rrd : RRDFile) : Z := Z.of_nat (length (rras rrd)).

(** Modelled from the spec: the archive list is ordered and read by
    position; a position outside the list has no archive. *)
Definition getRRA (rrd : RRDFile) (i : Z) : option RRA :=
  if Z.ltb i 0 then None else rras rrd !! Z.to_nat i.

(** Modelled from the spec: a data source is looked up by index or by
    name in the file's own list, and an unknown identifier fails with a
    lookup error. *)
Definition getDS (rrd : RRDFile) (id : dsid) : outcome DS :=
  match id with
  | DsIdx i =>
      match (if Z.ltb i 0 then None else dss rrd !! Z.to_nat i) with
      | Some ds => Return ds
      | None => Throw (LookupError id)
      end
  | DsName s =>
      match List.find (fun ds => String.eqb (getName ds) s) (dss rrd) with
      | Some ds => Return ds
      | None => Throw (LookupError id)
      end
  end.

(** ToNumber and ToBoolean on the argument values. *)
Definition to_number (v : jsval) : num :=
  match v with
  | Undefined => NaN
  | Null => of_Z 0
  | Number n => n
  end.

Definition to_boolean (v : jsval) : bool :=
  match v with
  | Undefined | Null => false
  | Number n => truthy n
  end.

(** ** jarmon.RrdQuery *)

Module Jarmon.

Record RrdQuery : Type := {
  rrd : RRDFile;
  q_unit : string
}.

(** The Flot data object that [getData] returns. *)
Record Result : Type := {
  label : string;
  data : list (num * num);
  r_unit : string;
  firstUpdated : num;
  lastUpdated : num
}.

(** [step], [rraRowCount], [lastRowTime] and [firstRowTime] are assigned
    together in the loop body, so they are defined together. *)
Record geometry : Type := {
  step : Z;
  rraRowCount : Z;
  lastRowTime : num;
  firstRowTime : num
}.

(** The variables of [var rra, step, rraRowCount, lastRowTime,
    firstRowTime]; [None] is [undefined]. *)
Record vars : Type := {
  rra : option RRA;
  geom : option geometry
}.

Definition vars0 : vars := {| rra := None; geom := None |}.

Definition geometry_of (lastUpdated : Z) (r : RRA) : geometry :=
  let step := getStep r in
  let rraRowCount := getNrRows r in
  let lastRowTime := sub (of_Z lastUpdated) (rem (of_Z lastUpdated) (of_Z step)) in
  let firstRowTime := sub lastRowTime (mul (of_Z rraRowCount) (of_Z step)) in
  {| step := step; rraRowCount := rraRowCount;
     lastRowTime := lastRowTime; firstRowTime := firstRowTime |}.

(** The loop [for(var i=0; i<this.rrd.getNrRRAs(); i++)] over the
    archives still to visit. [rra] is assigned before the CF test, the
    other variables after it. *)
Fixpoint scan (lastUpdated : Z) (startTime : num) (cfName : string)
    (todo : list RRA) (v : vars) : vars :=
  match todo with
  | [] => v
  | r :: todo' =>
      let v1 := {| rra := Some r; geom := geom v |} in
      if negb (String.eqb (getCFName r) cfName) then
        scan lastUpdated startTime cfName todo' v1
      else
        let g := geometry_of lastUpdated r in
        let v2 := {| rra := Some r; geom := Some g |} in
        if le (firstRowTime g) startTime then v2
        else scan lastUpdated startTime cfName todo' v2
  end.

#[global] Arguments geometry_of : simpl never.

Record window : Type := {
  startRowTime : num;
  endRowTime : num;
  startRowIndex : num;
  endRowIndex : num
}.

Definition rowWindow (g : geometry) (startTime endTime : num) : window :=
  let st := of_Z (step g) in
  let startRowTime := max (firstRowTime g) (sub startTime (rem startTime st)) in
  let endRowTime := min (lastRowTime g) (sub endTime (rem endTime st)) in
  let startRowTime := min startRowTime endRowTime in
  let startRowIndex :=
    sub (of_Z (rraRowCount g)) (div (sub (lastRowTime g) startRowTime) st) in
  let endRowIndex :=
    sub (of_Z (rraRowCount g)) (div (sub (lastRowTime g) endRowTime) st) in
  {| startRowTime := startRowTime; endRowTime := endRowTime;
     startRowIndex := startRowIndex; endRowIndex := endRowIndex |}.

(** The loop [for(var i=startRowIndex; i<endRowIndex; i++)], with a
    bound on the iterations left. *)
Fixpoint rows (fuel : nat) (r : RRA) (dsIndex : Z) (st endRowIndex : num)
    (i timestamp : num) (flotData : list (num * num)) : list (num * num) :=
  match fuel with
  | O => flotData
  | S fuel' =>
      if lt i endRowIndex then
        let val := getEl r i dsIndex in
        rows fuel' r dsIndex st endRowIndex (add i (of_Z 1)) (add timestamp st)
          (flotData ++ [(mul timestamp (of_Z 1000), val)])
      else flotData
  end.

(** The sample of iteration [k] of the row loop, when the loop starts at
    row [i] and time [t] and the step is [s]. *)
Definition sample (r : RRA) (dsIndex s : Z) (i t : num) (k : nat) : num * num :=
  (mul (add t (mul (of_Z (Z.of_nat k)) (of_Z s))) (of_Z 1000),
   getEl r (add i (of_Z (Z.of_nat k))) dsIndex).

(** Enough iterations for the row loop to leave by its own test. *)
Definition rowFuel (w : window) : nat :=
  match startRowIndex w, endRowIndex w with
  | Fin a, Fin b => Z.to_nat (Qceiling (Qcminus b a))
  | _, _ => O
  end.

Definition startTime_of (startTimeJs : num) : num := div startTimeJs (of_Z 1000).

Definition endTime_of (f : RRDFile) (endTimeJs : jsval) : num :=
  let lastUpdated := of_Z (getLastUpdate f) in
  let endTime := sub lastUpdated (rem lastUpdated (of_Z (getMinStep f))) in
  if to_boolean endTimeJs then div (to_number endTimeJs) (of_Z 1000) else endTime.

Definition dsId_of (dsId : option dsid) : dsid := default (DsIdx 0) dsId.
Definition cfName_of (cfName : option string) : string := default "AVERAGE"%string cfName.

Definition select (f : RRDFile) (startTimeJs : num) (cfName : option string) : vars :=
  scan (getLastUpdate f) (startTime_of startTimeJs) (cfName_of cfName) (rras f) vars0.

(** The store of JavaScript global variables. *)
Abbreviation globals := (gmap string num).

Definition getData (self : RrdQuery) (startTimeJs : num) (endTimeJs : jsval)
    (dsId : option dsid) (cfName : option string) (G : globals)
    : outcome Result * globals :=
  if ge startTimeJs (to_number endTimeJs) then
    (Throw (RangeError [Lit "starttime must be less than endtime. ";
                        Lit "starttime: "; Val (Number startTimeJs);
                        Lit "endtime: "; Val endTimeJs]), G)
  else
    let startTime := startTime_of startTimeJs in
    let lastUpdated := getLastUpdate (rrd self) in
    let endTime := endTime_of (rrd self) endTimeJs in
    match getDS (rrd self) (dsId_of dsId) with
    | Throw e => (Throw e, G)
    | Return ds =>
        let v := select (rrd self) startTimeJs cfName in
        match geom v with
        | None =>
            (Throw (TypeError ("Unrecognised consolidation function: "
                                 ++ cfName_of cfName)), G)
        | Some g =>
            if Z.eqb (step g) 0 then
              (Throw (TypeError ("Unrecognised consolidation function: "
                                   ++ cfName_of cfName)), G)
            else
              let dsIndex := getIdx ds in
              let w := rowWindow g startTime endTime in
              (* [rra] is defined as soon as [step] is: see [scan_rra_defined] *)
              match rra v with
              | None => (Throw (TypeError "rra is undefined"), G)
              | Some r =>
                  let flotData :=
                    rows (rowFuel w) r dsIndex (of_Z (step g)) (endRowIndex w)
                      (startRowIndex w) (startRowTime w) [] in
                  match getRRA (rrd self) (getNrRRAs (rrd self) - 1) with
                  | None => (Throw (RangeError [Lit "RRA idx out of range"]), G)
                  | Some r' =>
                      let fu := sub (of_Z lastUpdated)
                                  (mul (sub (of_Z (getNrRows r')) (of_Z 1))
                                       (of_Z (getStep r'))) in
                      (* [firstUpdated] is not declared with [var] *)
                      let G' := <["firstUpdated"%string := fu]> G in
                      (Return {| label := getName ds; data := flotData;
                                 r_unit := q_unit self;
                                 firstUpdated := mul fu (of_Z 1000);
                                 lastUpdated := mul (of_Z lastUpdated) (of_Z 1000) |}, G')
                  end
              end
        end
    end.

(** *** The archive choice, in the words of the specification

    The coverage floor of an archive, and the archive the specification
    asks for: the first one in file order with the requested
    consolidation function whose coverage floor is at most the start
    time, and failing that the last one with that function. *)
Definition coverageFloor (lastUpdate : Z) (r : RRA) : num :=
  sub (sub (of_Z lastUpdate) (rem (of_Z lastUpdate) (of_Z (getStep r))))
      (mul (of_Z (getNrRows r)) (of_Z (getStep r))).

Definition matchesCF (cfName : string) (r : RRA) : bool :=
  String.eqb (getCFName r) cfName.

Definition selectArchive (lastUpdate : Z) (startTime : num) (cfName : string)
    (archives : list RRA) : option RRA :=
  match List.find (fun r => matchesCF cfName r
                            && le (coverageFloor lastUpdate r) startTime) archives with
  | Some r => Some r
  | None => last (List.filter (matchesCF cfName) archives)
  end.

End Jarmon.

(** ** RrdQueryRemote: downloads and the requests chained on them *)

Module Remote.

(** A MochiKit Deferred returned by the downloader. [fired] is -1 until
    the download completes, then 0 (success) or 1 (error); [chained]
    lists the per-request deferreds added to it with [addBoth]. *)
Record Deferred : Type := {
  d_url : string;
  fired : Z;
  chained : list nat
}.

(** The fields of an RrdQueryRemote; [_download] is a position in the
    heap of download deferreds, [None] is [null]. *)
Record RrdQueryRemote : Type := {
  url : string;
  rq_unit : string;
  lastUpdate : num;
  _download : option nat
}.

(** The object together with every deferred the downloader has handed
    out (in call order) and the count of [ret] deferreds created. *)
Record world : Type := {
  self : RrdQueryRemote;
  heap : list Deferred;
  nret : nat
}.

(** [new RrdQueryRemote(url, unit)] *)
Definition create (u un : string) : world :=
  {| self := {| url := u; rq_unit := un; lastUpdate := of_Z 0; _download := None |};
     heap := []; nret := 0 |}.

Definition set_download (s : RrdQueryRemote) (d : option nat) : RrdQueryRemote :=
  {| url := url s; rq_unit := rq_unit s; lastUpdate := lastUpdate s; _download := d |}.

Definition set_lastUpdate (s : RrdQueryRemote) (n : num) : RrdQueryRemote :=
  {| url := url s; rq_unit := rq_unit s; lastUpdate := n; _download := _download s |}.

(** [this.downloader(this.url)]: one more deferred, not yet fired. *)
Definition startDownload (w : world) : world :=
  {| self := set_download (self w) (Some (length (heap w)));
     heap := heap w ++ [{| d_url := url (self w); fired := -1; chained := [] |}];
     nret := nret w |}.

Definition addBoth (d : Deferred) (ret : nat) : Deferred :=
  {| d_url := d_url d; fired := fired d; chained := chained d ++ [ret] |}.

(** The tail shared by both versions: create [ret] and chain it on the
    current download. *)
Definition chainRequest (w : world) : nat * world :=
  let ret := nret w in
  match _download (self w) with
  | None => (ret, {| self := self w; heap := heap w; nret := S ret |})
  | Some h =>
      (ret, {| self := self w;
               heap := alter (fun d => addBoth d ret) h (heap w);
               nret := S ret |})
  end.

(** jarmon.RrdQueryRemote.prototype._callRemote *)
Definition _callRemote (w : world) : nat * world :=
  let w1 := match _download (self w) with
            | None => startDownload w
            | Some _ => w
            end in
  chainRequest w1.

(** jarmon.RrdQueryRemote.prototype.getData *)
Definition getData (endTime : jsval) (w : world) : nat * world :=
  let w1 :=
    if lt (lastUpdate (self w)) (div (to_number endTime) (of_Z 1000)) then
      {| self := set_download (self w) None; heap := heap w; nret := nret w |}
    else w in
  _callRemote w1.

(** jrrd.RrdQueryRemote.prototype.getData; [endTime] is the value of
    [endTime.getTime()]. *)
Definition jrrd_getData (endTime : num) (w : world) : nat * world :=
  let endTimestamp := div endTime (of_Z 1000) in
  let restart :=
    match _download (self w) with
    | None => true
    | Some h =>
        match heap w !! h with
        | Some d => Z.ltb (-1) (fired d) && lt (lastUpdate (self w)) endTimestamp
        | None => false
        end
    end in
  chainRequest (if restart then startDownload w else w).

(** The download [h] completes: with the last update time of the parsed
    file, or with an error ([None]). The success callback stores the
    time in the object it closed over. *)
Definition complete (h : nat) (res : option Z) (w : world) : world :=
  match heap w !! h with
  | Some d =>
      if Z.eqb (fired d) (-1) then
        {| self := match res with
                   | Some lu => set_lastUpdate (self w) (of_Z lu)
                   | None => self w
                   end;
           heap := <[h := {| d_url := d_url d;
                             fired := match res with Some _ => 0 | None => 1 end;
                             chained := chained d |}]> (heap w);
           nret := nret w |}
      else w
  | None => w
  end.

(** What the page can do to the object. *)
Inductive event : Type :=
  | CallGetData (endTime : jsval)
  | Complete (h : nat) (res : option Z).

Definition react (e : event) (w : world) : world :=
  match e with
  | CallGetData endTime => (getData endTime w).2
  | Complete h res => complete h res w
  end.

Definition run (es : list event) (w : world) : world :=
  foldl (fun w e => react e w) w es.

(** Downloads started but not yet completed. *)
Definition outstanding (w : world) : list Deferred :=
  filter (fun d => fired d = -1) (heap w).

End Remote.

(** ** Sample files and queries *)

Module Samples.
Import Jarmon.

(** One AVERAGE archive, a row every 10 s, 100 rows; the cell of row [i]
    holds [i]. *)
Definition avg10 : RRA :=
  {| getCFName := "AVERAGE"; getStep := 10; getNrRows := 100;
     getEl := fun i _ => i |}.

Definition value_ds : DS := {| getName := "value"; getIdx := 0 |}.

Definition file1 : RRDFile :=
  {| getLastUpdate := 1000; getMinStep := 10; rras := [avg10]; dss := [value_ds] |}.

Definition query1 : RrdQuery := {| rrd := file1; q_unit := "B/s" |}.

(** An AVERAGE archive followed by a MAX archive of the same shape, as
    collectd lays them out; their cells hold 1 and 2. *)
Definition avg3 : RRA :=
  {| getCFName := "AVERAGE"; getStep := 10; getNrRows := 3;
     getEl := fun _ _ => of_Z 1 |}.

Definition max3 : RRA :=
  {| getCFName := "MAX"; getStep := 10; getNrRows := 3;
     getEl := fun _ _ => of_Z 2 |}.

Definition file2 : RRDFile :=
  {| getLastUpdate := 1000; getMinStep := 10; rras := [avg3; max3]; dss := [value_ds] |}.

Definition query2 : RrdQuery := {| rrd := file2; q_unit := "B/s" |}.

(** The result of a call, when it returns. *)
Definition returned (o : outcome Result * gmap string num) : option Result :=
  match o.1 with
  | Return r => Some r
  | Throw _ => None
  end.

Definition no_result : Result :=
  {| label := ""; data := []; r_unit := ""; firstUpdated := NaN; lastUpdated := NaN |}.

(** [getData(500000, 1000000)] on the first file: the rows from 500 s
    up to 1000 s. *)
Definition call1 : outcome Result * gmap string num :=
  getData query1 (of_Z 500000) (Number (of_Z 1000000)) None None ∅.

Definition result1 : Result := default no_result (returned call1).

Definition geom1 : geometry := geometry_of 1000 avg10.

End Samples.

(** ** jrrd.RrdQueryRemote driven by the page *)

Module JrrdRemote.
Import Remote.

(** What the page can do to a jrrd.RrdQueryRemote: call [getData] with
    an end time (the value of [endTime.getTime()]), or see a download
    complete. *)
Inductive event : Type :=
  | CallGetData (endTime : num)
  | Complete (h : nat) (res : option Z).

Definition react (e : event) (w : world) : world :=
  match e with
  | CallGetData endTime => (jrrd_getData endTime w).2
  | Complete h res => complete h res w
  end.

Definition run (es : list event) (w : world) : world :=
  foldl (fun w e => react e w) w es.

End JrrdRemote.

(** ** Invariants of the download heap *)

Module RemoteInvariants.
Import Remote.

(** Every download that has not fired is the current one. *)
Definition pending_is_current (w : world) : Prop :=
  forall (h : nat) (d : Deferred),
    heap w !! h = Some d -> fired d = -1 -> _download (self w) = Some h.

(** The current download is one the downloader has handed out. *)
Definition current_valid (w : world) : Prop :=
  forall h : nat, _download (self w) = Some h -> (h < length (heap w))%nat.

End RemoteInvariants.

(** ** jarmon.Parallimiter *)

Module Limiter.

Section Calls.

(** [J] is what is queued (a callable with its arguments), [R] what the
    Deferred of a call fires with (a result or an error). *)
Variables (J R : Type).

(** The fields of a Parallimiter; a queue entry is the Deferred handed
    to the caller, by number, and the call to make. Index 0 of
    [_callQueue] is the front of the array. *)
Record Parallimiter : Type := {
  limit : num;
  _callQueue : list (nat * J);
  _currentCallCount : Z
}.

(** The object with what has happened around it: the Deferreds created
    so far, the calls made (in order), the calls whose own Deferred has
    not fired yet, and the results passed on with [d.callback(res)]. *)
Record world : Type := {
  self : Parallimiter;
  ndeferred : nat;
  started : list (nat * J);
  running : list nat;
  delivered : list (nat * R)
}.

(** [new jarmon.Parallimiter(limit)], with [this.limit = limit || 1]. *)
Definition create (lim : jsval) : world :=
  {| self := {| limit := if to_boolean lim then to_number lim else of_Z 1;
                _callQueue := [];
                _currentCallCount := 0 |};
     ndeferred := 0; started := []; running := []; delivered := [] |}.

(** jarmon.Parallimiter.prototype._nextCall: [pop] takes the entry at
    the end of the array and the callable is applied. *)
Definition _nextCall (w : world) : world :=
  let q := _callQueue (self w) in
  if Z.ltb 0 (Z.of_nat (length q)) then
    if lt (of_Z (_currentCallCount (self w))) (limit (self w)) then
      match last q with
      | Some nextCall =>
          {| self := {| limit := limit (self w);
                        _callQueue := removelast q;
                        _currentCallCount := _currentCallCount (self w) + 1 |};
             ndeferred := ndeferred w;
             started := started w ++ [nextCall];
             running := running w ++ [nextCall.1];
             delivered := delivered w |}
      | None => w
      end
    else w
  else w.

(** jarmon.Parallimiter.prototype.addCallable: [unshift] puts the entry
    at the front of the array. *)
Definition addCallable (c : J) (w : world) : nat * world :=
  let d := ndeferred w in
  (d, _nextCall
        {| self := {| limit := limit (self w);
                      _callQueue := (d, c) :: _callQueue (self w);
                      _currentCallCount := _currentCallCount (self w) |};
           ndeferred := S d;
           started := started w;
           running := running w;
           delivered := delivered w |}).

(** The Deferred of the running call [d] fires with [res]: the function
    given to [addBoth] passes the result on, counts down and looks for
    the next call. *)
Definition finish (d : nat) (res : R) (w : world) : world :=
  if bool_decide (d ∈ running w) then
    _nextCall
      {| self := {| limit := limit (self w);
                    _callQueue := _callQueue (self w);
                    _currentCallCount := _currentCallCount (self w) - 1 |};
         ndeferred := ndeferred w;
         started := started w;
         running := filter (fun x => x <> d) (running w);
         delivered := delivered w ++ [(d, res)] |}
  else w.

Inductive event : Type :=
  | Add (c : J)
  | Finish (d : nat) (res : R).

Definition react (e : event) (w : world) : world :=
  match e with
  | Add c => (addCallable c w).2
  | Finish d res => finish d res w
  end.

Definition run (es : list event) (w : world) : world :=
  foldl (fun w e => react e w) w es.

(** The calls asked for, in the order of the [addCallable] calls. *)
Definition adds (es : list event) : list J :=
  omap (fun e => match e with Add c => Some c | Finish _ _ => None end) es.

(** The calls made and the calls waiting, oldest first. *)
Definition flow (w : world) : list (nat * J) :=
  started w ++ rev (_callQueue (self w)).

(** What holds of a Parallimiter between two events. *)
Record consistent (w : world) : Prop := {
  flow_ids : map fst (flow w) = seq 0 (ndeferred w);
  running_started : forall d, d ∈ running w -> d ∈ map fst (started w);
  running_NoDup : NoDup (running w);
  count_running : _currentCallCount (self w) = Z.of_nat (length (running w));
  count_bound : _currentCallCount (self w) = 0 \/
                lt (of_Z (_currentCallCount (self w) - 1)) (limit (self w)) = true;
  no_idle_slot : _callQueue (self w) <> [] ->
                 lt (of_Z (_currentCallCount (self w))) (limit (self w)) = false;
  started_accounted : map fst (started w) ≡ₚ running w ++ map fst (delivered w)
}.

End Calls.

Arguments limit {J}.
Arguments _callQueue {J}.
Arguments _currentCallCount {J}.
Arguments self {J R}.
Arguments ndeferred {J R}.
Arguments started {J R}.
Arguments running {J R}.
Arguments delivered {J R}.
Arguments create {J R}.
Arguments _nextCall {J R}.
Arguments addCallable {J R}.
Arguments finish {J R}.
Arguments Add {J R}.
Arguments Finish {J R}.
Arguments react {J R}.
Arguments run {J R}.
Arguments adds {J R}.
Arguments flow {J R}.
Arguments consistent {J R}.

End Limiter.

(** ** jarmon.Chart: the list of data sources *)

Module Chart.

Section Data.

(** [D] is the query object of a data source (an RrdQueryDsProxy). An
    entry of [this.data] is [[label, db, enabled]]. *)
Variable D : Type.

(** jarmon.Chart.prototype.addData; [None] is an [enabled] argument
    left out. *)
Definition addData (label : string) (db : D) (enabled : option bool)
    (data : list (string * D * bool)) : list (string * D * bool) :=
  data ++ [(label, db, default true enabled)].

(** jarmon.Chart.prototype.switchDataEnabled *)
Definition switchDataEnabled (label : string)
    (data : list (string * D * bool)) : list (string * D * bool) :=
  map (fun e => if String.eqb e.1.1 label then (e.1.1, e.1.2, negb e.2) else e) data.

End Data.

Arguments addData {D}.
Arguments switchDataEnabled {D}.

End Chart.

(** ** jarmon.timeRangeShortcuts *)

Module Shortcuts.

Definition timeRangeShortcuts : list (string * (num -> num * num)) :=
  [("last hour", fun now => (sub now (of_Z (60*60*1000*1)), now));
   ("last 3 hours", fun now => (sub now (of_Z (60*60*1000*3)), now));
   ("last 6 hours", fun now => (sub now (of_Z (60*60*1000*6)), now));
   ("last 12 hours", fun now => (sub now (of_Z (60*60*1000*12)), now));
   ("last day", fun now => (sub now (of_Z (60*60*1000*24)), now));
   ("last week", fun now => (sub now (of_Z (60*60*1000*24*7)), now));
   ("last month", fun now => (sub now (of_Z (60*60*1000*24*31)), now));
   ("last year", fun now => (sub now (of_Z (60*60*1000*24*365)), now))]%string.

(** The loop of [ChartCoordinator.update] over the shortcuts: the range
    of the first shortcut whose label is the selection, if any. *)
Fixpoint selectedRange (shortcuts : list (string * (num -> num * num)))
    (selection : string) (now : num) : option (num * num) :=
  match shortcuts with
  | [] => None
  | (label, f) :: rest =>
      if String.eqb label selection then Some (f now)
      else selectedRange rest selection now
  end.

End Shortcuts.

(** ** The range preview of ChartCoordinator.update *)

Module Preview.

(** What a chart hands over for one data source: the result of a query,
    or the stand-in data set of a disabled source, which has neither
    [firstUpdated] nor [lastUpdated]. *)
Inductive dataset : Type :=
  | FromQuery (r : Jarmon.Result)
  | Disabled.

Definition firstUpdated (d : dataset) : jsval :=
  match d with
  | FromQuery r => Number (Jarmon.firstUpdated r)
  | Disabled => Undefined
  end.

Definition lastUpdated (d : dataset) : jsval :=
  match d with
  | FromQuery r => Number (Jarmon.lastUpdated r)
  | Disabled => Undefined
  end.

(** One turn of the inner loop over [chartData[i][j]] on the pair
    [(firstUpdate, lastUpdate)]. *)
Definition widen (acc : num * num) (d : dataset) : num * num :=
  let firstUpdate := acc.1 in
  let lastUpdate := acc.2 in
  (if lt (to_number (firstUpdated d)) firstUpdate
   then to_number (firstUpdated d) else firstUpdate,
   if lt lastUpdate (to_number (lastUpdated d))
   then to_number (lastUpdated d) else lastUpdate).

(** Both loops, from [firstUpdate = new Date().getTime()] and
    [lastUpdate = 0]. *)
Definition updates (now : num) (chartData : list (list dataset)) : num * num :=
  foldl widen (now, of_Z 0) (concat chartData).

Definition HOUR : Z := 1000 * 60 * 60.
Definition DAY : Z := HOUR * 24.
Definition WEEK : Z := DAY * 7.
Definition MONTH : Z := DAY * 31.
Definition YEAR : Z := DAY * 365.

Definition periods : list Z :=
  [HOUR; HOUR*6; HOUR*12; DAY; DAY*3; WEEK; WEEK*2; MONTH; MONTH*3; MONTH*6; YEAR].

(** The loop [for(var i=0; i<periods.length; i++)] with its [i++] before
    [break], from index [i] over the periods left; the value is the [i]
    the loop ends with. *)
Fixpoint pickPeriod (range : num) (left : list Z) (i : Z) : Z :=
  match left with
  | [] => i
  | p :: left' =>
      if le range (of_Z p) then i + 1
      else pickPeriod range left' (i + 1)
  end.

(** [ps[k]] used as a number: [undefined], outside the array, counts as
    NaN. *)
Definition at_index (ps : list Z) (k : Z) : num :=
  if Z.ltb k 0 then NaN
  else match ps !! Z.to_nat k with
       | Some p => of_Z p
       | None => NaN
       end.

Record preview : Type := {
  from : num;
  to : num;
  data_start : num;
  data_end : num
}.

(** The callback of ChartCoordinator.update up to the data it plots:
    the selection [ranges.xaxis] and the two points of the timeline. *)
Definition rangePreview (now startTime endTime : num)
    (chartData : list (list dataset)) : preview :=
  let firstUpdate := (updates now chartData).1 in
  let lastUpdate := (updates now chartData).2 in
  let from := max startTime firstUpdate in
  let to := min endTime lastUpdate in
  let range := sub to from in
  let i := pickPeriod range periods 0 in
  {| from := from; to := to;
     data_start := max (sub from (at_index periods (i - 1))) firstUpdate;
     data_end := min (add to (at_index periods (i - 1))) lastUpdate |}.

(** A data set whose update times, if any, are whole numbers. *)
Definition whole (d : dataset) : Prop :=
  match d with
  | FromQuery r => is_integer (Jarmon.firstUpdated r) /\ is_integer (Jarmon.lastUpdated r)
  | Disabled => True
  end.

(** A query result with whole-number update times, as a file with
    integer fields gives them. *)
Definition sample_set : dataset :=
  FromQuery {| Jarmon.label := "value"; Jarmon.data := []; Jarmon.r_unit := "B/s";
               Jarmon.firstUpdated := of_Z 10000; Jarmon.lastUpdated := of_Z 1000000 |}.

End Preview.

(** ** jarmon.Chart.fromRecipe *)

Module Recipes.

(** What [dataDict[rrd]] can be: an RrdQueryRemote that fromRecipe has
    created, by its position in the order of creation, or a property
    that the object literal [{}] inherits under that name. *)
Inductive objref : Type :=
  | Own (r : nat)
  | Inherited (name : string).

(** new jarmon.RrdQueryDsProxy(rrdQuery, dsId), with [this.unit =
    rrdQuery.unit]; [None] is [undefined]. *)
Record RrdQueryDsProxy : Type := {
  rrdQuery : objref;
  dsId : dsid;
  p_unit : option string
}.

(** The RrdQueryRemote objects created so far and the own properties of
    [dataDict]. *)
Record store : Type := {
  remotes : list Remote.RrdQueryRemote;
  dataDict : gmap string nat
}.

(** The store only grows. *)
Definition extends (st st' : store) : Prop :=
  exists more, remotes st' = remotes st ++ more.

Section Build.

(** [O] is the type of chart options; [inherited] tells which names the
    object literal inherits from Object.prototype. *)
Variables (O : Type) (inherited : string -> bool).

(** A recipe: its title, its data rows [[rrd, ds, label, unit]] and its
    options. *)
Record recipe : Type := {
  title : string;
  data : list (string * dsid * string * string);
  options : O
}.

(** A Chart as fromRecipe leaves it: the title written into its
    template, its options and its list of data sources. *)
Record chart : Type := {
  c_title : string;
  c_options : O;
  c_data : list (string * RrdQueryDsProxy * bool)
}.

(** [dataDict[rrd]], [None] when [typeof dataDict[rrd] == 'undefined']. *)
Definition lookupDict (st : store) (rrd : string) : option objref :=
  match dataDict st !! rrd with
  | Some r => Some (Own r)
  | None => if inherited rrd then Some (Inherited rrd) else None
  end.

Definition unit_of (st : store) (o : objref) : option string :=
  match o with
  | Own r => Remote.rq_unit <$> (remotes st !! r)
  | Inherited _ => None
  end.

(** One turn of the loop over [recipe['data']]. *)
Definition addItem (acc : store * list (string * RrdQueryDsProxy))
    (item : string * dsid * string * string)
    : store * list (string * RrdQueryDsProxy) :=
  let rrd := item.1.1.1 in
  let ds := item.1.1.2 in
  let label := item.1.2 in
  let unit := item.2 in
  let st := acc.1 in
  let chartData := acc.2 in
  let (st1, o) :=
    match lookupDict st rrd with
    | None =>
        ({| remotes := remotes st ++ [Remote.self (Remote.create rrd unit)];
            dataDict := <[rrd := length (remotes st)]> (dataDict st) |},
         Own (length (remotes st)))
    | Some o => (st, o)
    end in
  (st1, chartData ++ [(label, {| rrdQuery := o; dsId := ds; p_unit := unit_of st1 o |})]).

(** One turn of the loop over the recipes. *)
Definition addRecipe (acc : store * list chart) (r : recipe) : store * list chart :=
  let st := acc.1 in
  let charts := acc.2 in
  let (st1, chartData) := foldl addItem (st, []) (data r) in
  if Nat.ltb 0 (length chartData) then
    (st1, charts ++ [{| c_title := title r; c_options := options r;
                        c_data := foldl (fun d e => Chart.addData e.1 e.2 None d)
                                        [] chartData |}])
  else (st1, charts).

(** jarmon.Chart.fromRecipe: the charts, with the RrdQueryRemote objects
    their proxies refer to. *)
Definition fromRecipe (recipes : list recipe) : store * list chart :=
  foldl addRecipe ({| remotes := []; dataDict := ∅ |}, []) recipes.

(** All the data rows of the recipes, in order. *)
Definition rows_of (recipes : list recipe) : list (string * dsid * string * string) :=
  concat (data <$> recipes).

(** What a data source of a chart must be for the row it comes from. *)
Definition serves (st : store) (item : string * dsid * string * string)
    (e : string * RrdQueryDsProxy * bool) : Prop :=
  e.1.1 = item.1.2 /\ e.2 = true /\ dsId e.1.2 = item.1.1.2 /\
  match rrdQuery e.1.2 with
  | Own r =>
      exists q, remotes st !! r = Some q /\ Remote.url q = item.1.1.1 /\
                p_unit e.1.2 = Some (Remote.rq_unit q)
  | Inherited n => n = item.1.1.1 /\ inherited n = true /\ p_unit e.1.2 = None
  end.

(** What a chart must be for the recipe it comes from. *)
Definition built (st : store) (r : recipe) (c : chart) : Prop :=
  c_title c = title r /\ c_options c = options r /\
  Forall2 (serves st) (data r) (c_data c).

(** The recipes that have data rows. *)
Definition with_data (recipes : list recipe) : list recipe :=
  List.filter (fun r => Nat.ltb 0 (length (data r))) recipes.

(** What holds of the store after the rows [seen] have been handled:
    the dictionary and the objects agree, the dictionary has the URLs
    seen that are not inherited names, and every object is as it was
    created for the first row with its URL. *)
Record store_ok (st : store) (seen : list (string * dsid * string * string)) : Prop := {
  dict_agrees : forall (u : string) (r : nat),
    dataDict st !! u = Some r <-> (Remote.url <$> (remotes st !! r)) = Some u;
  dict_keys : forall u : string,
    is_Some (dataDict st !! u) <-> (u ∈ map (fun it => it.1.1.1) seen /\ inherited u = false);
  remotes_fresh : forall (r : nat) (q : Remote.RrdQueryRemote),
    remotes st !! r = Some q ->
    exists it, List.find (fun it => String.eqb it.1.1.1 (Remote.url q)) seen = Some it /\
               Remote.rq_unit q = it.2 /\
               Remote.lastUpdate q = of_Z 0 /\ Remote._download q = None
}.

End Build.

Arguments title {O}.
Arguments data {O}.
Arguments options {O}.
Arguments c_title {O}.
Arguments c_options {O}.
Arguments c_data {O}.
Arguments addRecipe {O}.
Arguments fromRecipe {O}.
Arguments rows_of {O}.
Arguments built {O}.
Arguments with_data {O}.

(** The names an object literal inherits in every browser. *)
Definition inherited_names (n : string) : bool :=
  bool_decide (n ∈ ["constructor"; "toString"; "toLocaleString"; "valueOf";
                    "hasOwnProperty"; "isPrototypeOf"; "propertyIsEnumerable"]%string).

(** Two recipes over three data sources of one file and a recipe
    without data, with a number standing for the options. *)
Definition sample_recipes : list (recipe nat) :=
  [ {| title := "Load Average";
       data := [("load/load.rrd", DsName "shortterm", "Short Term", "");
                ("load/load.rrd", DsName "midterm", "Medium Term", "procs")]%string;
       options := 0%nat |};
    {| title := "Nothing"; data := []; options := 1%nat |};
    {| title := "Long Term Load";
       data := [("load/load.rrd", DsName "longterm", "Long Term", "procs")]%string;
       options := 2%nat |} ].

End Recipes.

(** ** Arithmetic of JavaScript numbers on integers *)

Module JsNumFacts.

Lemma of_Z_inj (a b : Z) : of_Z a = of_Z b -> a = b.
Proof.
  intros H.
  assert (E : Q2Qc (inject_Z a) = Q2Qc (inject_Z b)) by (unfold of_Z in H; congruence).
  apply Q2Qc_eq_iff in E. unfold Qeq in E. simpl in E. lia.
Qed.

Lemma Qcplus_Z (a b : Z) :
  Qcplus (Q2Qc (inject_Z a)) (Q2Qc (inject_Z b)) = Q2Qc (inject_Z (a + b)).
Proof.
  apply Qc_is_canon. unfold Qcplus. simpl.
  rewrite !Qred_correct, inject_Z_plus. reflexivity.
Qed.

Lemma Qcopp_Z (a : Z) : Qcopp (Q2Qc (inject_Z a)) = Q2Qc (inject_Z (- a)).
Proof.
  apply Qc_is_canon. unfold Qcopp. simpl.
  rewrite !Qred_correct, inject_Z_opp. reflexivity.
Qed.

Lemma Qcminus_Z (a b : Z) :
  Qcminus (Q2Qc (inject_Z a)) (Q2Qc (inject_Z b)) = Q2Qc (inject_Z (a - b)).
Proof. unfold Qcminus. rewrite Qcopp_Z, Qcplus_Z. reflexivity. Qed.

Lemma Qcmult_Z (a b : Z) :
  Qcmult (Q2Qc (inject_Z a)) (Q2Qc (inject_Z b)) = Q2Qc (inject_Z (a * b)).
Proof.
  apply Qc_is_canon. unfold Qcmult. simpl.
  rewrite !Qred_correct, inject_Z_mult. reflexivity.
Qed.

Lemma Qc_is_zero_spec (q : Qc) : Qc_is_zero q = true <-> q = Q2Qc 0.
Proof.
  unfold Qc_is_zero. rewrite Z.eqb_eq. split.
  - intros H. apply Qc_is_canon. simpl. unfold Qeq. simpl. lia.
  - intros ->. reflexivity.
Qed.

Lemma Qc_is_zero_Z (a : Z) : Qc_is_zero (Q2Qc (inject_Z a)) = Z.eqb a 0.
Proof.
  destruct (Z.eqb_spec a 0) as [->|Hn]; [reflexivity|].
  destruct (Qc_is_zero (Q2Qc (inject_Z a))) eqn:E; [|reflexivity].
  apply Qc_is_zero_spec in E. apply Q2Qc_eq_iff in E.
  unfold Qeq in E. simpl in E. lia.
Qed.

Lemma Qcdiv_Z (a s : Z) : s <> 0 ->
  Qcdiv (Q2Qc (inject_Z (a * s))) (Q2Qc (inject_Z s)) = Q2Qc (inject_Z a).
Proof.
  intros Hs. rewrite <- Qcmult_Z. apply Qcdiv_mult_l.
  intros E. apply Q2Qc_eq_iff in E. unfold Qeq in E. simpl in E. lia.
Qed.

Lemma Qcleb_Z (a b : Z) : Qcleb (Q2Qc (inject_Z a)) (Q2Qc (inject_Z b)) = Z.leb a b.
Proof.
  unfold Qcleb. apply eq_true_iff_eq.
  rewrite Qle_bool_iff, Z.leb_le. simpl. rewrite !Qred_correct.
  rewrite <- Zle_Qle. reflexivity.
Qed.

Lemma Qcltb_Z (a b : Z) : Qcltb (Q2Qc (inject_Z a)) (Q2Qc (inject_Z b)) = Z.ltb a b.
Proof.
  unfold Qcltb. fold (Qcleb (Q2Qc (inject_Z b)) (Q2Qc (inject_Z a))).
  rewrite Qcleb_Z, Z.ltb_antisym. reflexivity.
Qed.

Lemma add_Z (a b : Z) : add (of_Z a) (of_Z b) = of_Z (a + b).
Proof. unfold add, of_Z. simpl. now rewrite Qcplus_Z. Qed.

Lemma sub_Z (a b : Z) : sub (of_Z a) (of_Z b) = of_Z (a - b).
Proof. unfold sub, of_Z. simpl. now rewrite Qcminus_Z. Qed.

Lemma mul_Z (a b : Z) : mul (of_Z a) (of_Z b) = of_Z (a * b).
Proof. unfold mul, of_Z. simpl. now rewrite Qcmult_Z. Qed.

Lemma div_Z (a s : Z) : s <> 0 -> div (of_Z (a * s)) (of_Z s) = of_Z a.
Proof.
  intros Hs. unfold div, of_Z. rewrite Qc_is_zero_Z.
  destruct (Z.eqb_spec s 0); [lia|]. now rewrite Qcdiv_Z.
Qed.

Lemma le_Z (a b : Z) : le (of_Z a) (of_Z b) = Z.leb a b.
Proof. apply Qcleb_Z. Qed.

Lemma lt_Z (a b : Z) : lt (of_Z a) (of_Z b) = Z.ltb a b.
Proof. apply Qcltb_Z. Qed.

Lemma max_Z (a b : Z) : max (of_Z a) (of_Z b) = of_Z (Z.max a b).
Proof.
  unfold max, of_Z. rewrite Qcleb_Z.
  destruct (Z.leb_spec a b); f_equal; f_equal; f_equal; lia.
Qed.

Lemma min_Z (a b : Z) : min (of_Z a) (of_Z b) = of_Z (Z.min a b).
Proof.
  unfold min, of_Z. rewrite Qcleb_Z.
  destruct (Z.leb_spec a b); f_equal; f_equal; f_equal; lia.
Qed.

(** [x - x % s] is the multiple of [s] reached by rounding [x / s]
    towards zero. *)
Lemma quantize (x : Qc) (s : Z) : s <> 0 ->
  sub (Fin x) (rem (Fin x) (of_Z s))
  = of_Z (s * Qctrunc (Qcdiv x (Q2Qc (inject_Z s)))).
Proof.
  intros Hs. unfold sub, rem, of_Z. simpl. rewrite Qc_is_zero_Z.
  destruct (Z.eqb_spec s 0); [lia|]. f_equal.
  rewrite <- Qcmult_Z.
  set (y := Q2Qc (inject_Z s)).
  set (t := Q2Qc (inject_Z (Qctrunc (Qcdiv x y)))).
  ring.
Qed.

Lemma quantize_Z (L s : Z) : s <> 0 ->
  sub (of_Z L) (rem (of_Z L) (of_Z s))
  = of_Z (s * Qctrunc (Qcdiv (Q2Qc (inject_Z L)) (Q2Qc (inject_Z s)))).
Proof. apply quantize. Qed.

End JsNumFacts.

(** ** The archive loop *)

Module ScanFacts.
Import Jarmon.

Section Scan.
Variables (lastUpdated : Z) (startTime : num) (cfName : string).

Abbreviation scan' := (scan lastUpdated startTime cfName).


Lemma scan_geom_inv (l : list RRA) (v : vars) (g : geometry) :
  geom (scan' l v) = Some g ->
  geom v = Some g \/
  exists r, r ∈ l /\ getCFName r = cfName /\ g = geometry_of lastUpdated r.
Proof.
  revert v. induction l as [|r l IH]; intros v H; simpl in H; [now left|].
  destruct (String.eqb_spec (getCFName r) cfName) as [E|_]; simpl in H.
  - destruct (le _ startTime).
    + right. exists r. split; [left|]. split; [exact E|]. simpl in H. congruence.
    + apply IH in H as [H|(r' & Hin & Hcf & Hg)].
      * right. exists r. split; [left|]. split; [exact E|]. simpl in H. congruence.
      * right. exists r'. split; [now right|]. now split.
  - apply IH in H as [H|(r' & Hin & Hcf & Hg)]; [now left|].
    right. exists r'. split; [now right|]. now split.
Qed.

Lemma scan_geom_cases (l : list RRA) (v : vars) :
  (geom (scan' l v) = geom v /\ forall r, r ∈ l -> getCFName r <> cfName) \/
  (exists r, r ∈ l /\ getCFName r = cfName /\
             geom (scan' l v) = Some (geometry_of lastUpdated r)).
Proof.
  revert v. induction l as [|r l IH]; intros v; simpl.
  { left. split; [reflexivity|]. intros r Hr. inversion Hr. }
  destruct (String.eqb_spec (getCFName r) cfName) as [E|Hne]; simpl.
  - right. destruct (le _ startTime).
    + exists r. split; [left|]. now split.
    + destruct (IH {| rra := Some r; geom := Some (geometry_of lastUpdated r) |})
        as [[Hg _]|(r' & Hin' & Hcf' & Hg)].
      * exists r. split; [left|]. split; [exact E|]. rewrite Hg. reflexivity.
      * exists r'. split; [now right|]. now split.
  - destruct (IH {| rra := Some r; geom := geom v |})
      as [[Hg Hno]|(r' & Hin' & Hcf' & Hg)].
    + left. split; [exact Hg|]. intros r' Hr'.
      apply elem_of_cons in Hr' as [->|Hr']; [exact Hne|now apply Hno].
    + right. exists r'. split; [now right|]. now split.
Qed.


(** Whenever [step] has been assigned, so has [rra]. *)
Lemma scan_rra_defined (l : list RRA) (v : vars) :
  (is_Some (geom v) -> is_Some (rra v)) ->
  is_Some (geom (scan' l v)) -> is_Some (rra (scan' l v)).
Proof.
  revert v. induction l as [|r l IH]; intros v Hv; simpl; [exact Hv|].
  destruct (negb _); [apply IH; simpl; eauto|].
  destruct (le _ startTime); [simpl; eauto|apply IH; simpl; eauto].
Qed.

(** The loop against the choice the specification describes: the
    step, row count and row times are those of the archive it asks
    for; [rra] is that archive when one covers the start time, and
    otherwise the last archive of the file. *)
Lemma scan_selectArchive (l : list RRA) (v : vars) :
  match List.find (fun r => matchesCF cfName r
                            && le (coverageFloor lastUpdated r) startTime) l with
  | Some r => scan' l v = {| rra := Some r; geom := Some (geometry_of lastUpdated r) |}
  | None =>
      geom (scan' l v)
        = match last (List.filter (matchesCF cfName) l) with
          | Some r => Some (geometry_of lastUpdated r)
          | None => geom v
          end /\
      rra (scan' l v) = match last l with Some r => Some r | None => rra v end
  end.
Proof.
  revert v. induction l as [|r l IH]; intros v; [split; reflexivity|].
  cbn [scan List.find List.filter]. unfold matchesCF at 1 3.
  change (coverageFloor lastUpdated r) with (firstRowTime (geometry_of lastUpdated r)).
  destruct (String.eqb (getCFName r) cfName) eqn:E; cbn [negb andb].
  - destruct (le (firstRowTime (geometry_of lastUpdated r)) startTime); [reflexivity|].
    specialize (IH {| rra := Some r; geom := Some (geometry_of lastUpdated r) |}).
    destruct (List.find _ l); [exact IH|].
    destruct IH as [Hg Hr]. rewrite Hg, Hr, !last_cons. cbn [geom rra].
    split; [destruct (last (List.filter _ l))|destruct (last l)]; reflexivity.
  - specialize (IH {| rra := Some r; geom := geom v |}).
    destruct (List.find _ l); [exact IH|].
    destruct IH as [Hg Hr]. rewrite Hg, Hr, last_cons. cbn [geom rra].
    split; [reflexivity|destruct (last l); reflexivity].
Qed.

End Scan.

End ScanFacts.

(** ** The row window and the row loop *)

Module RowFacts.
Import Jarmon JsNumFacts.

Lemma add_0_r (x : num) : add x (of_Z 0) = x.
Proof.
  destruct x as [|q]; [reflexivity|]. unfold add, lift2, of_Z. f_equal.
  apply Qcplus_0_r.
Qed.

Lemma add_assoc (x y z : num) : add (add x y) z = add x (add y z).
Proof.
  destruct x, y, z; try reflexivity. unfold add, lift2. f_equal.
  symmetry. apply Qcplus_assoc.
Qed.

Lemma sub_NaN_r (x : num) : sub x NaN = NaN.
Proof. now destruct x. Qed.

Lemma max_NaN_r (x : num) : max x NaN = NaN.
Proof. now destruct x. Qed.

Lemma min_NaN_r (x : num) : min x NaN = NaN.
Proof. now destruct x. Qed.

Lemma min_NaN_l (x : num) : min NaN x = NaN.
Proof. reflexivity. Qed.

Lemma div_NaN_l (x : num) : div NaN x = NaN.
Proof. reflexivity. Qed.

Lemma quantize_NaN (st : num) : sub NaN (rem NaN st) = NaN.
Proof. reflexivity. Qed.

Lemma sample_0 (r : RRA) (dsIndex s : Z) (i t : num) :
  sample r dsIndex s i t 0 = (mul t (of_Z 1000), getEl r i dsIndex).
Proof.
  unfold sample. simpl Z.of_nat. rewrite mul_Z, Z.mul_0_l, !add_0_r. reflexivity.
Qed.

Lemma sample_S (r : RRA) (dsIndex s : Z) (i t : num) (k : nat) :
  sample r dsIndex s (add i (of_Z 1)) (add t (of_Z s)) k
  = sample r dsIndex s i t (S k).
Proof.
  unfold sample. rewrite !mul_Z, !add_assoc, !add_Z. do 4 f_equal; lia.
Qed.

Lemma rows_spec (r : RRA) (dsIndex s : Z) (e : num) (fuel : nat) :
  forall (i t : num) (acc : list (num * num)),
  exists n : nat,
    (n <= fuel)%nat /\
    rows fuel r dsIndex (of_Z s) e i t acc
      = acc ++ map (sample r dsIndex s i t) (seq 0 n) /\
    (forall k : nat, (k < n)%nat -> lt (add i (of_Z (Z.of_nat k))) e = true) /\
    ((n < fuel)%nat -> lt (add i (of_Z (Z.of_nat n))) e = false).
Proof.
  induction fuel as [|fuel IH]; intros i t acc.
  { exists O. simpl. rewrite app_nil_r.
    split; [lia|]. split; [reflexivity|]. split; intros; lia. }
  cbn [rows]. destruct (lt i e) eqn:Hlt.
  - destruct (IH (add i (of_Z 1)) (add t (of_Z s))
                (acc ++ [(mul t (of_Z 1000), getEl r i dsIndex)]))
      as (n & Hn & Heq & Hin & Hout).
    exists (S n). split; [lia|]. split; [|split].
    + rewrite Heq, <- app_assoc. f_equal. simpl. rewrite sample_0. f_equal.
      rewrite <- seq_shift, map_map. apply map_ext. intros k. apply sample_S.
    + intros [|k] Hk.
      * simpl Z.of_nat. now rewrite add_0_r.
      * specialize (Hin k ltac:(lia)).
        rewrite add_assoc, add_Z in Hin.
        replace (Z.of_nat (S k)) with (1 + Z.of_nat k) by lia. exact Hin.
    + intros Hlt'. specialize (Hout ltac:(lia)).
      rewrite add_assoc, add_Z in Hout.
      replace (Z.of_nat (S n)) with (1 + Z.of_nat n) by lia. exact Hout.
  - exists O. simpl. rewrite app_nil_r. split; [lia|]. split; [reflexivity|].
    split; [lia|]. intros _. now rewrite add_0_r.
Qed.

(** The bound given to the row loop is large enough: after that many
    rows the loop test fails. *)
Lemma rowFuel_enough (w : window) :
  lt (add (startRowIndex w) (of_Z (Z.of_nat (rowFuel w)))) (endRowIndex w) = false.
Proof.
  unfold rowFuel. destruct (startRowIndex w) as [|a]; [reflexivity|].
  destruct (endRowIndex w) as [|b]; [reflexivity|].
  unfold lt, add, of_Z, lift2, Qcltb. apply negb_false_iff, Qle_bool_iff.
  set (c := Qceiling (b - a)%Qc).
  assert (Hc : (this (b - a)%Qc <= inject_Z (Z.of_nat (Z.to_nat c)))%Q).
  { eapply Qle_trans; [apply Qle_ceiling|]. fold c. rewrite <- Zle_Qle. lia. }
  revert Hc. generalize (Z.of_nat (Z.to_nat c)). intros z Hz.
  unfold Qcminus, Qcplus, Qcopp, Q2Qc in *. simpl in *.
  rewrite !Qred_correct in *.
  apply (Qplus_le_l _ _ (- a)%Q). 
  eapply Qle_trans; [exact Hz|]. apply Qle_lteq. right. ring.
Qed.

Lemma rows_complete (r : RRA) (dsIndex s : Z) (w : window) (t : num) :
  exists n : nat,
    rows (rowFuel w) r dsIndex (of_Z s) (endRowIndex w) (startRowIndex w) t []
      = map (sample r dsIndex s (startRowIndex w) t) (seq 0 n) /\
    (forall k : nat, (k < n)%nat ->
       lt (add (startRowIndex w) (of_Z (Z.of_nat k))) (endRowIndex w) = true) /\
    lt (add (startRowIndex w) (of_Z (Z.of_nat n))) (endRowIndex w) = false.
Proof.
  destruct (rows_spec r dsIndex s (endRowIndex w) (rowFuel w) (startRowIndex w) t [])
    as (n & Hn & Heq & Hin & Hout).
  exists n. split; [exact Heq|]. split; [exact Hin|].
  destruct (decide (n < rowFuel w)%nat) as [Hlt|Hge]; [now apply Hout|].
  replace n with (rowFuel w) by lia. apply rowFuel_enough.
Qed.

(** More fuel does not change the series. *)
Lemma rows_fuel_irrelevant (r : RRA) (dsIndex s : Z) (w : window) (t : num) (extra : nat) :
  rows (rowFuel w + extra) r dsIndex (of_Z s) (endRowIndex w) (startRowIndex w) t []
  = rows (rowFuel w) r dsIndex (of_Z s) (endRowIndex w) (startRowIndex w) t [].
Proof.
  destruct (rows_complete r dsIndex s w t) as (n & Heq & Hin & Hout).
  destruct (rows_spec r dsIndex s (endRowIndex w) (rowFuel w + extra) (startRowIndex w) t [])
    as (m & Hm & Heq' & Hin' & Hout').
  rewrite Heq, Heq'. simpl. f_equal. f_equal.
  destruct (lt_eq_lt_dec m n) as [[Hlt|Heqn]|Hgt]; [|exact Heqn|].
  - specialize (Hin m Hlt). rewrite Hout' in Hin; [discriminate|].
    destruct (rows_spec r dsIndex s (endRowIndex w) (rowFuel w) (startRowIndex w) t [])
      as (n' & Hn' & Heq'' & _).
    rewrite Heq in Heq''. simpl in Heq''.
    apply (f_equal length) in Heq''. rewrite !length_map, !length_seq in Heq''. lia.
  - specialize (Hin' n Hgt). rewrite Hout in Hin'. discriminate.
Qed.

(** Every time of an archive with a nonzero step is a multiple of the
    step. *)
Lemma geometry_int (L : Z) (r : RRA) :
  getStep r <> 0 ->
  exists kL : Z,
    lastRowTime (geometry_of L r) = of_Z (getStep r * kL) /\
    firstRowTime (geometry_of L r) = of_Z (getStep r * (kL - getNrRows r)).
Proof.
  intros Hs. unfold geometry_of. cbn [lastRowTime firstRowTime].
  rewrite !quantize_Z by exact Hs.
  eexists. split; [reflexivity|].
  rewrite mul_Z, sub_Z. f_equal. lia.
Qed.

Lemma rowWindow_int (g : geometry) (kL kF : Z) (x y : Qc) :
  step g <> 0 ->
  lastRowTime g = of_Z (step g * kL) ->
  firstRowTime g = of_Z (step g * kF) ->
  exists a b : Z,
    startRowTime (rowWindow g (Fin x) (Fin y)) = of_Z (step g * a) /\
    endRowTime (rowWindow g (Fin x) (Fin y)) = of_Z (step g * b) /\
    step g * a <= step g * b /\
    startRowIndex (rowWindow g (Fin x) (Fin y)) = of_Z (rraRowCount g - (kL - a)) /\
    endRowIndex (rowWindow g (Fin x) (Fin y)) = of_Z (rraRowCount g - (kL - b)).
Proof.
  intros Hs HL HF. unfold rowWindow.
  cbn [startRowTime endRowTime startRowIndex endRowIndex].
  rewrite HL, HF, !quantize by exact Hs.
  set (kS := Qctrunc (x / _)). set (kE := Qctrunc (y / _)).
  rewrite max_Z, !min_Z.
  assert (Ha : exists a, Z.max (step g * kF) (step g * kS) = step g * a).
  { destruct (Z.max_spec (step g * kF) (step g * kS)) as [[_ ->]|[_ ->]]; eauto. }
  destruct Ha as (a0 & ->).
  assert (Hb : exists b, Z.min (step g * kL) (step g * kE) = step g * b).
  { destruct (Z.min_spec (step g * kL) (step g * kE)) as [[_ ->]|[_ ->]]; eauto. }
  destruct Hb as (b & ->).
  assert (Ha : exists a, Z.min (step g * a0) (step g * b) = step g * a).
  { destruct (Z.min_spec (step g * a0) (step g * b)) as [[_ ->]|[_ ->]]; eauto. }
  destruct Ha as (a & Ha). rewrite Ha.
  exists a, b. split; [reflexivity|]. split; [reflexivity|]. split; [lia|].
  rewrite !sub_Z.
  replace (step g * kL - step g * a) with ((kL - a) * step g) by lia.
  replace (step g * kL - step g * b) with ((kL - b) * step g) by lia.
  rewrite !div_Z by exact Hs. rewrite !sub_Z. split; reflexivity.
Qed.

Lemma rowWindow_NaN_l (g : geometry) (y : num) :
  startRowTime (rowWindow g NaN y) = NaN /\ startRowIndex (rowWindow g NaN y) = NaN.
Proof.
  unfold rowWindow. cbn [startRowTime startRowIndex].
  rewrite quantize_NaN, max_NaN_r, min_NaN_l, sub_NaN_r, div_NaN_l, sub_NaN_r.
  split; reflexivity.
Qed.

Lemma rowWindow_NaN_r (g : geometry) (x : num) :
  startRowTime (rowWindow g x NaN) = NaN /\ startRowIndex (rowWindow g x NaN) = NaN.
Proof.
  unfold rowWindow. cbn [startRowTime startRowIndex].
  rewrite quantize_NaN, !min_NaN_r, sub_NaN_r, div_NaN_l, sub_NaN_r.
  split; reflexivity.
Qed.

End RowFacts.

(** ** What a call of [getData] that returns has done *)

Module GetDataFacts.
Import Jarmon JsNumFacts ScanFacts RowFacts.

Lemma getRRA_last (f : RRDFile) : getRRA f (getNrRRAs f - 1) = last (rras f).
Proof.
  unfold getRRA, getNrRRAs. rewrite last_lookup.
  destruct (rras f) as [|r l]; [reflexivity|].
  destruct (Z.ltb_spec (Z.of_nat (length (r :: l)) - 1) 0) as [H|H].
  { simpl length in H. lia. }
  f_equal. simpl length. lia.
Qed.

Lemma select_geom_inv (f : RRDFile) (s : num) (cf : option string) (g : geometry) :
  geom (select f s cf) = Some g ->
  exists r, r ∈ rras f /\ getCFName r = cfName_of cf /\
            g = geometry_of (getLastUpdate f) r.
Proof.
  intros H. apply scan_geom_inv in H as [H|H]; [discriminate|exact H].
Qed.

(** The variables after the loop follow the specification's choice of
    archive, except that [rra] is the last archive of the file when no
    archive covers the start time. *)
Lemma select_geometry (f : RRDFile) (s : num) (cf : option string) :
  geom (select f s cf)
  = geometry_of (getLastUpdate f)
      <$> selectArchive (getLastUpdate f) (startTime_of s) (cfName_of cf) (rras f).
Proof.
  unfold select, selectArchive.
  pose proof (scan_selectArchive (getLastUpdate f) (startTime_of s) (cfName_of cf)
                (rras f) vars0) as H.
  destruct (List.find _ (rras f)); [rewrite H; reflexivity|].
  destruct H as [-> _]. destruct (last _); reflexivity.
Qed.

Lemma select_rra (f : RRDFile) (s : num) (cf : option string) :
  rra (select f s cf)
  = match List.find (fun r => matchesCF (cfName_of cf) r
                              && le (coverageFloor (getLastUpdate f) r) (startTime_of s))
                    (rras f) with
    | Some r => Some r
    | None => last (rras f)
    end.
Proof.
  unfold select.
  pose proof (scan_selectArchive (getLastUpdate f) (startTime_of s) (cfName_of cf)
                (rras f) vars0) as H.
  destruct (List.find _ (rras f)); [rewrite H; reflexivity|].
  destruct H as [_ ->]. destruct (last _); reflexivity.
Qed.

Lemma getData_Return (self : RrdQuery) (s : num) (e : jsval)
    (ds : option dsid) (cf : option string) (G G' : gmap string num) (res : Result) :
  getData self s e ds cf G = (Return res, G') ->
  exists (d : DS) (g : geometry) (r r' : RRA),
    ge s (to_number e) = false /\
    getDS (rrd self) (dsId_of ds) = Return d /\
    geom (select (rrd self) s cf) = Some g /\
    step g <> 0 /\
    rra (select (rrd self) s cf) = Some r /\
    last (rras (rrd self)) = Some r' /\
    let w := rowWindow g (startTime_of s) (endTime_of (rrd self) e) in
    let fu := sub (of_Z (getLastUpdate (rrd self)))
                (mul (sub (of_Z (getNrRows r')) (of_Z 1)) (of_Z (getStep r'))) in
    res = {| label := getName d;
             data := rows (rowFuel w) r (getIdx d) (of_Z (step g)) (endRowIndex w)
                       (startRowIndex w) (startRowTime w) [];
             r_unit := q_unit self;
             firstUpdated := mul fu (of_Z 1000);
             lastUpdated := mul (of_Z (getLastUpdate (rrd self))) (of_Z 1000) |} /\
    G' = <["firstUpdated"%string := fu]> G.
Proof.
  unfold getData. intros H.
  destruct (ge s (to_number e)) eqn:Hge; [discriminate|].
  destruct (getDS (rrd self) (dsId_of ds)) as [d|?] eqn:Hds; [|discriminate].
  destruct (geom (select (rrd self) s cf)) as [g|] eqn:Hg; [|discriminate].
  destruct (Z.eqb_spec (step g) 0) as [|Hs]; [discriminate|].
  destruct (rra (select (rrd self) s cf)) as [r|] eqn:Hr; [|discriminate].
  rewrite getRRA_last in H.
  destruct (last (rras (rrd self))) as [r'|] eqn:Hl; [|discriminate].
  exists d, g, r, r'. cbv zeta. repeat (split; [done|]).
  split; congruence.
Qed.

(** A call that throws leaves the global variables alone. *)
Lemma getData_Throw (self : RrdQuery) (s : num) (e : jsval)
    (ds : option dsid) (cf : option string) (G G' : gmap string num) (x : exn) :
  getData self s e ds cf G = (Throw x, G') -> G' = G.
Proof.
  unfold getData. intros H.
  repeat match type of H with
         | (if ?c then _ else _) = _ => destruct c
         | match ?c with _ => _ end = _ => destruct c
         end; congruence.
Qed.

(** The window of an accepted query: either a time is not a number and
    so is the first row index, or all four values are integers and the
    two times are multiples of the step. *)
Lemma window_cases (f : RRDFile) (s : num) (cf : option string) (g : geometry)
    (startTime endTime : num) :
  geom (select f s cf) = Some g -> step g <> 0 ->
  (startRowTime (rowWindow g startTime endTime) = NaN /\
   startRowIndex (rowWindow g startTime endTime) = NaN /\
   (startTime = NaN \/ endTime = NaN)) \/
  (exists kL a b : Z,
     lastRowTime g = of_Z (step g * kL) /\
     startRowTime (rowWindow g startTime endTime) = of_Z (step g * a) /\
     endRowTime (rowWindow g startTime endTime) = of_Z (step g * b) /\
     step g * a <= step g * b /\
     startRowIndex (rowWindow g startTime endTime) = of_Z (rraRowCount g - (kL - a)) /\
     endRowIndex (rowWindow g startTime endTime) = of_Z (rraRowCount g - (kL - b))).
Proof.
  intros Hg Hs.
  destruct startTime as [|x].
  { left. destruct (rowWindow_NaN_l g endTime). auto. }
  destruct endTime as [|y].
  { left. destruct (rowWindow_NaN_r g (Fin x)). auto. }
  right. apply select_geom_inv in Hg as (r & _ & _ & ->).
  destruct (geometry_int (getLastUpdate f) r Hs) as (kL & HL & HF).
  destruct (rowWindow_int _ kL (kL - getNrRows r) x y Hs HL HF)
    as (a & b & H). exists kL, a, b. split; [exact HL|exact H].
Qed.

End GetDataFacts.

(** ** The series of an accepted query *)

Module SeriesFacts.
Import Jarmon JsNumFacts ScanFacts RowFacts GetDataFacts.

Lemma lookup_map_seq {A : Type} (f : nat -> A) (n k : nat) (p : A) :
  map f (seq 0 n) !! k = Some p <-> (k < n)%nat /\ p = f k.
Proof.
  change (map f (seq 0 n)) with (f <$> seq 0 n).
  rewrite list_lookup_fmap. split.
  - intros H. destruct (seq 0 n !! k) as [j|] eqn:E; [|discriminate].
    apply lookup_seq in E as [-> ?]. simpl in H. split; [lia|congruence].
  - intros [Hk ->]. rewrite (lookup_seq_lt 0 n k Hk). reflexivity.
Qed.

Lemma length_map_seq {A : Type} (f : nat -> A) (n : nat) :
  length (map f (seq 0 n)) = n.
Proof. now rewrite length_map, length_seq. Qed.

Lemma sample_int (r : RRA) (dsIndex s i t : Z) (k : nat) :
  sample r dsIndex s (of_Z i) (of_Z t) k
  = (of_Z ((t + Z.of_nat k * s) * 1000), getEl r (of_Z (i + Z.of_nat k)) dsIndex).
Proof. unfold sample. now rewrite !mul_Z, !add_Z, mul_Z. Qed.

(** The shape of the series of a call that returns: one sample per row
    of the window, or none when the window is not made of numbers. *)
Lemma series_shape (self : RrdQuery) (s : num) (e : jsval)
    (ds : option dsid) (cf : option string) (G G' : gmap string num) (res : Result) :
  getData self s e ds cf G = (Return res, G') ->
  exists (d : DS) (g : geometry) (r : RRA) (n : nat),
    getDS (rrd self) (dsId_of ds) = Return d /\
    geom (select (rrd self) s cf) = Some g /\ step g <> 0 /\
    rra (select (rrd self) s cf) = Some r /\
    let w := rowWindow g (startTime_of s) (endTime_of (rrd self) e) in
    data res = map (sample r (getIdx d) (step g) (startRowIndex w) (startRowTime w))
                   (seq 0 n) /\
    (forall k : nat, (k < n)%nat ->
       lt (add (startRowIndex w) (of_Z (Z.of_nat k))) (endRowIndex w) = true) /\
    lt (add (startRowIndex w) (of_Z (Z.of_nat n))) (endRowIndex w) = false.
Proof.
  intros H. apply getData_Return in H
    as (d & g & r & r' & _ & Hds & Hg & Hs & Hr & _ & Hres & _).
  cbv zeta in Hres.
  destruct (rows_complete r (getIdx d) (step g)
              (rowWindow g (startTime_of s) (endTime_of (rrd self) e))
              (startRowTime (rowWindow g (startTime_of s) (endTime_of (rrd self) e))))
    as (n & Heq & Hin & Hout).
  exists d, g, r, n. repeat (split; [assumption|]).
  cbv zeta. split; [|split; assumption].
  rewrite Hres. simpl. exact Heq.
Qed.

(** When the series is not empty the window is made of integers, the
    step is positive and the series has one sample per row. *)
Lemma series_int (self : RrdQuery) (s : num) (e : jsval)
    (ds : option dsid) (cf : option string) (G G' : gmap string num) (res : Result) :
  getData self s e ds cf G = (Return res, G') ->
  data res = [] \/
  exists (d : DS) (g : geometry) (r : RRA) (kL a b : Z),
    getDS (rrd self) (dsId_of ds) = Return d /\
    geom (select (rrd self) s cf) = Some g /\
    rra (select (rrd self) s cf) = Some r /\
    0 < step g /\ a < b /\
    let w := rowWindow g (startTime_of s) (endTime_of (rrd self) e) in
    startRowTime w = of_Z (step g * a) /\
    endRowTime w = of_Z (step g * b) /\
    startRowIndex w = of_Z (rraRowCount g - (kL - a)) /\
    endRowIndex w = of_Z (rraRowCount g - (kL - b)) /\
    data res = map (fun k : nat =>
                      (of_Z ((step g * a + Z.of_nat k * step g) * 1000),
                       getEl r (of_Z (rraRowCount g - (kL - a) + Z.of_nat k)) (getIdx d)))
                   (seq 0 (Z.to_nat (b - a))).
Proof.
  intros H. destruct (series_shape _ _ _ _ _ _ _ _ H)
    as (d & g & r & n & Hds & Hg & Hs & Hr & Hdata & Hin & Hout).
  cbv zeta in *.
  destruct n as [|n]; [left; exact Hdata|]. right.
  destruct (window_cases (rrd self) s cf g (startTime_of s)
              (endTime_of (rrd self) e) Hg Hs)
    as [(_ & Hnan & _)|(kL & a & b & _ & HT & HE & Hle & HI & HJ)].
  { specialize (Hin O ltac:(lia)). rewrite Hnan in Hin. discriminate. }
  rewrite HI, HJ in Hin, Hout. rewrite HI, HT in Hdata.
  assert (Hn : Z.of_nat (S n) = b - a).
  { rewrite add_Z, lt_Z in Hout. apply Z.ltb_ge in Hout.
    specialize (Hin n ltac:(lia)). rewrite add_Z, lt_Z in Hin.
    apply Z.ltb_lt in Hin. lia. }
  exists d, g, r, kL, a, b. repeat (split; [assumption|]).
  split; [nia|]. split; [lia|]. repeat (split; [assumption|]).
  rewrite Hdata. replace (Z.to_nat (b - a)) with (S n) by lia.
  apply map_ext. intros k. apply sample_int.
Qed.

End SeriesFacts.

(** ** The claims about [jarmon.RrdQuery.prototype.getData] *)

Module GetDataClaims.
Import Jarmon JsNumFacts ScanFacts RowFacts GetDataFacts SeriesFacts Samples.


(** C5. In the result of a call that returns, [firstUpdated] is
    [(lastUpdate - (rowCount - 1) * step) * 1000] for the row count and
    step of the last archive of the file, and [lastUpdated] is
    [lastUpdate * 1000], whichever archive served the series. *)
Theorem coverage_bounds_from_last_archive (self : RrdQuery) (s : num) (e : jsval)
    (ds : option dsid) (cf : option string) (G G' : gmap string num) (res : Result) :
  getData self s e ds cf G = (Return res, G') ->
  exists r' : RRA,
    last (rras (rrd self)) = Some r' /\
    firstUpdated res
      = of_Z ((getLastUpdate (rrd self) - (getNrRows r' - 1) * getStep r') * 1000) /\
    lastUpdated res = of_Z (getLastUpdate (rrd self) * 1000).
Proof.
  intros H. apply getData_Return in H
    as (d & g & r & r' & _ & _ & _ & _ & _ & Hl & Hres & _).
  exists r'. split; [exact Hl|]. cbv zeta in Hres. rewrite Hres. simpl.
  now rewrite !sub_Z, !mul_Z, sub_Z, mul_Z.
Qed.

(** C6. A call that returns has pushed exactly one pair per row index
    from [startRowIndex] up to, and not including, [endRowIndex]: the
    pair of iteration [k] holds [(startRowTime + k * step) * 1000] and
    the cell of row [startRowIndex + k], and a cell that is not a number
    stays in the series as not-a-number. *)
Theorem one_sample_per_row (self : RrdQuery) (s : num) (e : jsval)
    (ds : option dsid) (cf : option string) (G G' : gmap string num) (res : Result) :
  getData self s e ds cf G = (Return res, G') ->
  exists (d : DS) (g : geometry) (r : RRA) (n : nat),
    getDS (rrd self) (dsId_of ds) = Return d /\
    geom (select (rrd self) s cf) = Some g /\
    rra (select (rrd self) s cf) = Some r /\
    let w := rowWindow g (startTime_of s) (endTime_of (rrd self) e) in
    length (data res) = n /\
    (forall k : nat, (k < n)%nat ->
       lt (add (startRowIndex w) (of_Z (Z.of_nat k))) (endRowIndex w) = true) /\
    lt (add (startRowIndex w) (of_Z (Z.of_nat n))) (endRowIndex w) = false /\
    (forall k : nat, (k < n)%nat ->
       data res !! k
       = Some (mul (add (startRowTime w) (mul (of_Z (Z.of_nat k)) (of_Z (step g))))
                   (of_Z 1000),
               getEl r (add (startRowIndex w) (of_Z (Z.of_nat k))) (getIdx d))) /\
    (forall k : nat, (k < n)%nat ->
       getEl r (add (startRowIndex w) (of_Z (Z.of_nat k))) (getIdx d) = NaN ->
       exists t : num, data res !! k = Some (t, NaN)).
Proof.
  intros H. destruct (series_shape _ _ _ _ _ _ _ _ H)
    as (d & g & r & n & Hds & Hg & Hs & Hr & Hdata & Hin & Hout).
  exists d, g, r, n. repeat (split; [assumption|]). cbv zeta in *.
  assert (Hk : forall k : nat, (k < n)%nat ->
     data res !! k
     = Some (mul (add (startRowTime (rowWindow g (startTime_of s) (endTime_of (rrd self) e)))
                      (mul (of_Z (Z.of_nat k)) (of_Z (step g))))
                 (of_Z 1000),
             getEl r (add (startRowIndex (rowWindow g (startTime_of s)
                                            (endTime_of (rrd self) e)))
                          (of_Z (Z.of_nat k))) (getIdx d))).
  { intros k Hk. rewrite Hdata. apply lookup_map_seq. split; [exact Hk|reflexivity]. }
  split; [rewrite Hdata; apply length_map_seq|].
  repeat (split; [assumption|]).
  intros k Hlt Hnan. rewrite (Hk k Hlt), Hnan. eauto.
Qed.


(** C3, as the code has it. The range test compares the two arguments
    as they were passed, before any default: when the start is at least
    the end that was passed ([null] counting as 0), the call throws a
    RangeError whose message carries both values, and nothing else
    happens. *)
Theorem explicit_range_check (self : RrdQuery) (s : num) (e : jsval)
    (ds : option dsid) (cf : option string) (G : gmap string num) :
  ge s (to_number e) = true ->
  getData self s e ds cf G
  = (Throw (RangeError [Lit "starttime must be less than endtime. ";
                        Lit "starttime: "; Val (Number s);
                        Lit "endtime: "; Val e]), G).
Proof. intros H. unfold getData. rewrite H. reflexivity. Qed.

(** C10, as the code has it. A falsy end time that passes the range test
    is replaced by [lastUpdate - lastUpdate % minStep], and the call
    then does what a call without end time does. *)
Theorem falsy_end_defaults (self : RrdQuery) (s : num) (e : jsval)
    (ds : option dsid) (cf : option string) (G : gmap string num) :
  to_boolean e = false ->
  ge s (to_number e) = false ->
  endTime_of (rrd self) e
    = sub (of_Z (getLastUpdate (rrd self)))
          (rem (of_Z (getLastUpdate (rrd self))) (of_Z (getMinStep (rrd self)))) /\
  getData self s e ds cf G = getData self s Undefined ds cf G.
Proof.
  intros Hb Hge.
  assert (He : endTime_of (rrd self) e = endTime_of (rrd self) Undefined).
  { unfold endTime_of. rewrite Hb. reflexivity. }
  split; [rewrite He; reflexivity|].
  unfold getData. rewrite Hge, He.
  replace (ge s (to_number Undefined)) with false; [reflexivity|].
  now destruct s.
Qed.


(** *** The claims at sample inputs *)


Lemma coverage_bounds_from_last_archive_witness :
  call1 = (Return result1, call1.2) /\
  exists r' : RRA,
    last (rras file1) = Some r' /\
    firstUpdated result1
      = of_Z ((getLastUpdate file1 - (getNrRows r' - 1) * getStep r') * 1000) /\
    lastUpdated result1 = of_Z (getLastUpdate file1 * 1000).
Proof.
  assert (H1 : call1 = (Return result1, call1.2)) by (vm_compute; reflexivity).
  split; [exact H1|].
  exact (coverage_bounds_from_last_archive query1 (of_Z 500000)
           (Number (of_Z 1000000)) None None ∅ call1.2 result1 H1).
Defined.

Lemma one_sample_per_row_witness :
  call1 = (Return result1, call1.2) /\
  exists (d : DS) (g : geometry) (r : RRA) (n : nat),
    getDS file1 (dsId_of None) = Return d /\
    geom (select file1 (of_Z 500000) None) = Some g /\
    rra (select file1 (of_Z 500000) None) = Some r /\
    let w := rowWindow g (startTime_of (of_Z 500000))
               (endTime_of file1 (Number (of_Z 1000000))) in
    length (data result1) = n /\
    (forall k : nat, (k < n)%nat ->
       lt (add (startRowIndex w) (of_Z (Z.of_nat k))) (endRowIndex w) = true) /\
    lt (add (startRowIndex w) (of_Z (Z.of_nat n))) (endRowIndex w) = false /\
    (forall k : nat, (k < n)%nat ->
       data result1 !! k
       = Some (mul (add (startRowTime w) (mul (of_Z (Z.of_nat k)) (of_Z (step g))))
                   (of_Z 1000),
               getEl r (add (startRowIndex w) (of_Z (Z.of_nat k))) (getIdx d))) /\
    (forall k : nat, (k < n)%nat ->
       getEl r (add (startRowIndex w) (of_Z (Z.of_nat k))) (getIdx d) = NaN ->
       exists t : num, data result1 !! k = Some (t, NaN)).
Proof.
  assert (H1 : call1 = (Return result1, call1.2)) by (vm_compute; reflexivity).
  split; [exact H1|].
  exact (one_sample_per_row query1 (of_Z 500000)
           (Number (of_Z 1000000)) None None ∅ call1.2 result1 H1).
Defined.



Lemma explicit_range_check_witness :
  ge (of_Z 1000) (to_number (Number (of_Z 1000))) = true /\
  getData query1 (of_Z 1000) (Number (of_Z 1000)) (Some (DsIdx 0))
    (Some "AVERAGE"%string) ∅
  = (Throw (RangeError [Lit "starttime must be less than endtime. ";
                        Lit "starttime: "; Val (Number (of_Z 1000));
                        Lit "endtime: "; Val (Number (of_Z 1000))]), ∅).
Proof.
  assert (H : ge (of_Z 1000) (to_number (Number (of_Z 1000))) = true)
    by (vm_compute; reflexivity).
  split; [exact H|].
  exact (explicit_range_check query1 (of_Z 1000) (Number (of_Z 1000))
           (Some (DsIdx 0)) (Some "AVERAGE"%string) ∅ H).
Defined.

(** C3 as stated fails: with the end time left out, a start time (2000 s)
    after the end time in effect (1000 s) is not refused; the window is
    clamped and the series is empty. *)
Lemma defaulted_end_is_not_range_checked :
  endTime_of file1 Undefined = of_Z 1000 /\
  ge (startTime_of (of_Z 2000000)) (endTime_of file1 Undefined) = true /\
  exists res : Result,
    returned (getData query1 (of_Z 2000000) Undefined None None ∅) = Some res /\
    data res = [].
Proof.
  split; [apply quantize_Z; discriminate|].
  split; [vm_compute; reflexivity|].
  vm_compute. eexists. split; reflexivity.
Qed.

Lemma falsy_end_defaults_witness :
  to_boolean (Number (of_Z 0)) = false /\
  ge (of_Z (-5000)) (to_number (Number (of_Z 0))) = false /\
  endTime_of file1 (Number (of_Z 0))
    = sub (of_Z (getLastUpdate file1))
          (rem (of_Z (getLastUpdate file1)) (of_Z (getMinStep file1))) /\
  getData query1 (of_Z (-5000)) (Number (of_Z 0)) None None ∅
  = getData query1 (of_Z (-5000)) Undefined None None ∅.
Proof.
  assert (H1 : to_boolean (Number (of_Z 0)) = false) by (vm_compute; reflexivity).
  assert (H2 : ge (of_Z (-5000)) (to_number (Number (of_Z 0))) = false)
    by (vm_compute; reflexivity).
  split; [exact H1|]. split; [exact H2|].
  exact (falsy_end_defaults query1 (of_Z (-5000)) (Number (of_Z 0)) None None ∅ H1 H2).
Defined.

(** C10 as stated fails: an end time of 0 with a start time of 1000 ms
    is refused by the range test, while the same call without end time
    returns. *)
Lemma zero_end_is_range_checked :
  to_boolean (Number (of_Z 0)) = false /\
  (exists m, (getData query1 (of_Z 1000) (Number (of_Z 0)) None None ∅).1
             = Throw (RangeError m)) /\
  (exists res, (getData query1 (of_Z 1000) Undefined None None ∅).1 = Return res).
Proof.
  split; [vm_compute; reflexivity|].
  split; vm_compute; eexists; reflexivity.
Qed.


(** C1 fails on the code at this input. No AVERAGE archive of the second
    file reaches back to 0 s, so the specification asks for its last
    AVERAGE archive, whose cells hold 1. The loop leaves the step and
    the row times of that archive in place, but [rra] is the MAX archive
    that ends the file, and the series holds its cells. *)
Theorem fallback_reads_last_archive_of_file :
  selectArchive (getLastUpdate file2) (startTime_of (of_Z 0)) "AVERAGE" (rras file2)
    = Some avg3 /\
  geom (select file2 (of_Z 0) (Some "AVERAGE"%string))
    = Some (geometry_of (getLastUpdate file2) avg3) /\
  rra (select file2 (of_Z 0) (Some "AVERAGE"%string)) = Some max3 /\
  exists res : Result,
    returned (getData query2 (of_Z 0) (Number (of_Z 1000000)) (Some (DsIdx 0))
                (Some "AVERAGE"%string) ∅) = Some res /\
    map snd (data res) = [getEl max3 (of_Z 0) 0; getEl max3 (of_Z 1) 0;
                          getEl max3 (of_Z 2) 0] /\
    map snd (data res) <> [getEl avg3 (of_Z 0) 0; getEl avg3 (of_Z 1) 0;
                           getEl avg3 (of_Z 2) 0].
Proof.
  split; [vm_compute; reflexivity|]. split; [vm_compute; reflexivity|].
  split; [vm_compute; reflexivity|].
  vm_compute. eexists. split; [reflexivity|]. split; [reflexivity|].
  intros H. discriminate H.
Qed.

(** C9 fails on the code at this input: the assignment to the undeclared
    [firstUpdated] creates a global variable, which holds the first
    update time (10 s) after the call. *)
Theorem getData_assigns_global_firstUpdated :
  (∅ : gmap string num) !! "firstUpdated"%string = None /\
  call1.2 !! "firstUpdated"%string = Some (of_Z 10) /\
  call1.2 <> ∅.
Proof.
  split; [reflexivity|].
  assert (H : call1.2 !! "firstUpdated"%string = Some (of_Z 10)).
  { unfold call1, getData. vm_compute. f_equal. }
  split; [exact H|]. intros E. rewrite E in H. discriminate H.
Qed.

(** What [getData] does to the global variables in general. *)
Lemma getData_globals (self : RrdQuery) (s : num) (e : jsval)
    (ds : option dsid) (cf : option string) (G : gmap string num) :
  match getData self s e ds cf G with
  | (Return res, G') => exists fu : num, G' = <["firstUpdated"%string := fu]> G
  | (Throw _, G') => G' = G
  end.
Proof.
  destruct (getData self s e ds cf G) as [[res|x] G'] eqn:H.
  - apply getData_Return in H as (d & g & r & r' & H). eexists. apply H.
  - now apply getData_Throw in H.
Qed.

End GetDataClaims.

(** ** The claim about RrdQueryRemote *)

Module RemoteClaims.
Import Remote.

(** jrrd.js keeps to the single download: while the current download
    has not fired, a further [getData] starts nothing and chains its
    request on that download. *)
Lemma jrrd_single_download (endTime : num) (w : world) (h : nat) (d : Deferred) :
  _download (self w) = Some h ->
  heap w !! h = Some d ->
  fired d = -1 ->
  length (heap (jrrd_getData endTime w).2) = length (heap w) /\
  _download (self (jrrd_getData endTime w).2) = Some h /\
  heap (jrrd_getData endTime w).2 !! h = Some (addBoth d (jrrd_getData endTime w).1).
Proof.
  intros Hd Hh Hf. unfold jrrd_getData. rewrite Hd, Hh, Hf.
  change (Z.ltb (-1) (-1)) with false. cbn [andb].
  unfold chainRequest. rewrite Hd. cbn [fst snd heap self].
  split; [apply length_alter|]. split; [exact Hd|].
  rewrite list_lookup_alter_eq, Hh. reflexivity.
Qed.

(** jarmon.js does the same only when the requested end time is not
    after the last update time it knows. *)
Lemma jarmon_single_download_when_fresh (endTime : jsval) (w : world) (h : nat)
    (d : Deferred) :
  _download (self w) = Some h ->
  heap w !! h = Some d ->
  JsNum.lt (lastUpdate (self w)) (div (to_number endTime) (of_Z 1000)) = false ->
  length (heap (getData endTime w).2) = length (heap w) /\
  _download (self (getData endTime w).2) = Some h /\
  heap (getData endTime w).2 !! h = Some (addBoth d (getData endTime w).1).
Proof.
  intros Hd Hh Hlt. unfold getData. rewrite Hlt. unfold _callRemote. rewrite Hd.
  unfold chainRequest. rewrite Hd. cbn [fst snd heap self].
  split; [apply length_alter|]. split; [exact Hd|].
  rewrite list_lookup_alter_eq, Hh. reflexivity.
Qed.

(** And otherwise it forgets the download that is under way and starts
    another. *)
Lemma jarmon_restarts_when_stale (endTime : jsval) (w : world) :
  JsNum.lt (lastUpdate (self w)) (div (to_number endTime) (of_Z 1000)) = true ->
  length (heap (getData endTime w).2) = S (length (heap w)) /\
  _download (self (getData endTime w).2) = Some (length (heap w)).
Proof.
  intros Hlt. unfold getData. rewrite Hlt. unfold _callRemote.
  cbn [self set_download _download]. unfold chainRequest, startDownload.
  cbn [self set_download _download heap fst snd].
  rewrite length_alter, length_app. cbn [length].
  split; [lia|reflexivity].
Qed.

(** C8 fails on the code of jarmon.js at this input: two calls of
    [getData] with the end time 1000000 ms on a fresh object. After the
    first call one download is outstanding; the second call starts a
    second download of the same URL while the first has not completed,
    and chains its request on the new one. jrrd.js, on the same two
    calls, keeps the single download. *)
Theorem jarmon_second_download_while_outstanding :
  let w0 := create "cpu.rrd" "%" in
  let w1 := run [CallGetData (Number (of_Z 1000000))] w0 in
  let w2 := run [CallGetData (Number (of_Z 1000000));
                 CallGetData (Number (of_Z 1000000))] w0 in
  let j1 := (jrrd_getData (of_Z 1000000) w0).2 in
  let j2 := (jrrd_getData (of_Z 1000000) j1).2 in
  outstanding w1 = [{| d_url := "cpu.rrd"; fired := -1; chained := [0%nat] |}] /\
  _download (self w1) = Some 0%nat /\
  outstanding w2 = [{| d_url := "cpu.rrd"; fired := -1; chained := [0%nat] |};
                    {| d_url := "cpu.rrd"; fired := -1; chained := [1%nat] |}] /\
  _download (self w2) = Some 1%nat /\
  outstanding j2 = [{| d_url := "cpu.rrd"; fired := -1; chained := [0%nat; 1%nat] |}].
Proof. vm_compute. repeat split. Qed.

(** Once the download has completed with a last update time of 2000 s,
    a call that asks for data up to 1000 s is served from it. *)
Lemma jarmon_reuses_completed_download :
  let w := run [CallGetData (Number (of_Z 1000000)); Complete 0 (Some 2000);
                CallGetData (Number (of_Z 1000000))] (create "cpu.rrd" "%") in
  heap w = [{| d_url := "cpu.rrd"; fired := 0; chained := [0%nat; 1%nat] |}] /\
  outstanding w = [].
Proof. vm_compute. repeat split. Qed.

End RemoteClaims.

(** ** More on [jarmon.RrdQuery.prototype.getData] *)

Module GetDataExtras.
Import Jarmon JsNumFacts ScanFacts RowFacts GetDataFacts SeriesFacts Samples.

(** The two row times of a window over finite times, against the first
    and last row times of the archive. *)
Lemma rowWindow_bounds (g : geometry) (TL TF : Z) (x y : Qc) :
  step g <> 0 ->
  lastRowTime g = of_Z TL ->
  firstRowTime g = of_Z TF ->
  exists S E : Z,
    startRowTime (rowWindow g (Fin x) (Fin y)) = of_Z S /\
    endRowTime (rowWindow g (Fin x) (Fin y)) = of_Z E /\
    S <= E /\ E <= TL /\ (S < E -> TF <= S).
Proof.
  intros Hs HL HF. unfold rowWindow. cbn [startRowTime endRowTime].
  rewrite HL, HF, !quantize by exact Hs.
  rewrite max_Z, !min_Z. eexists _, _.
  split; [reflexivity|]. split; [reflexivity|]. lia.
Qed.

(** A series that is not empty, with the position of its window in the
    archive: the rows lie between the first and the last row. *)
Lemma series_int_bounds (self : RrdQuery) (s : num) (e : jsval)
    (ds : option dsid) (cf : option string) (G G' : gmap string num) (res : Result) :
  getData self s e ds cf G = (Return res, G') ->
  data res <> [] ->
  exists (d : DS) (g : geometry) (r : RRA) (kL a b : Z),
    getDS (rrd self) (dsId_of ds) = Return d /\
    geom (select (rrd self) s cf) = Some g /\
    rra (select (rrd self) s cf) = Some r /\
    0 < step g /\ a < b /\ kL - rraRowCount g <= a /\ b <= kL /\
    lastRowTime g = of_Z (step g * kL) /\
    firstRowTime g = of_Z (step g * (kL - rraRowCount g)) /\
    let w := rowWindow g (startTime_of s) (endTime_of (rrd self) e) in
    startRowTime w = of_Z (step g * a) /\
    endRowTime w = of_Z (step g * b) /\
    startRowIndex w = of_Z (rraRowCount g - (kL - a)) /\
    endRowIndex w = of_Z (rraRowCount g - (kL - b)) /\
    data res = map (fun k : nat =>
                      (of_Z ((step g * a + Z.of_nat k * step g) * 1000),
                       getEl r (of_Z (rraRowCount g - (kL - a) + Z.of_nat k)) (getIdx d)))
                   (seq 0 (Z.to_nat (b - a))).
Proof.
  intros H Hne. destruct (series_int _ _ _ _ _ _ _ _ H)
    as [Hnil|(d & g & r & kL & a & b & Hds & Hg & Hr & Hpos & Hab &
              HT & HE & HI & HJ & Hdata)]; [contradiction|].
  cbv zeta in *.
  exists d, g, r, kL, a, b. repeat (split; [assumption|]).
  assert (Hs : step g <> 0) by lia.
  destruct (select_geom_inv _ _ _ _ Hg) as (r0 & _ & _ & Hg0).
  destruct (geometry_int (getLastUpdate (rrd self)) r0) as (k0 & HL & HF).
  { rewrite Hg0 in Hs. exact Hs. }
  rewrite <- Hg0 in HL, HF.
  change (getStep r0) with (step (geometry_of (getLastUpdate (rrd self)) r0)) in HL, HF.
  change (getNrRows r0)
    with (rraRowCount (geometry_of (getLastUpdate (rrd self)) r0)) in HF.
  rewrite <- Hg0 in HL, HF.
  destruct (startTime_of s) as [|x] eqn:Ex.
  { destruct (rowWindow_NaN_l g (endTime_of (rrd self) e)) as [Hn _].
    rewrite Hn in HT. discriminate HT. }
  destruct (endTime_of (rrd self) e) as [|y] eqn:Ey.
  { destruct (rowWindow_NaN_r g (Fin x)) as [Hn _].
    rewrite Hn in HT. discriminate HT. }
  destruct (rowWindow_int g k0 (k0 - rraRowCount g) x y Hs HL HF)
    as (a' & b' & HT' & HE' & _ & HI' & _).
  destruct (rowWindow_bounds g _ _ x y Hs HL HF)
    as (S & E & HS & HE2 & HSE & HETL & HTF).
  rewrite HT in HT', HS. rewrite HE in HE', HE2. rewrite HI in HI'.
  apply of_Z_inj in HT', HS, HE', HE2, HI'.
  assert (a' = a) by nia. subst a'.
  assert (k0 = kL) by lia. subst k0.
  split; [nia|]. split; [nia|]. repeat (split; [assumption|]). exact Hdata.
Qed.

(** X1. Every row that a call reads lies inside the archive, between
    row 0 and the row count, and the series is no longer than the
    archive. *)
Theorem rows_read_within_archive (self : RrdQuery) (s : num) (e : jsval)
    (ds : option dsid) (cf : option string) (G G' : gmap string num)
    (res : Result) (g : geometry) :
  getData self s e ds cf G = (Return res, G') ->
  geom (select (rrd self) s cf) = Some g ->
  Z.of_nat (length (data res)) <= Z.max 0 (rraRowCount g) /\
  forall k : nat, (k < length (data res))%nat ->
    exists i : Z,
      add (startRowIndex (rowWindow g (startTime_of s) (endTime_of (rrd self) e)))
          (of_Z (Z.of_nat k)) = of_Z i /\
      0 <= i < rraRowCount g.
Proof.
  intros H Hg. destruct (data res) as [|p l] eqn:El.
  { split; [simpl; lia|]. intros k Hk. simpl in Hk. lia. }
  destruct (series_int_bounds _ _ _ _ _ _ _ _ H)
    as (d & g' & r & kL & a & b & _ & Hg' & _ & Hpos & Hab & Hlo & Hhi &
        _ & _ & _ & _ & HI & _ & Hdata).
  { rewrite El. discriminate. }
  assert (g' = g) as -> by congruence. cbv zeta in *.
  rewrite <- El, Hdata, length_map_seq, HI. split; [lia|].
  intros k Hk. exists (rraRowCount g - (kL - a) + Z.of_nat k).
  rewrite add_Z. split; [reflexivity|lia].
Qed.

(** X2. A series that is not empty starts at [startRowTime], ends one
    step before [endRowTime], and has as many samples as there are steps
    between the two; the step is then positive. *)
Theorem series_endpoints (self : RrdQuery) (s : num) (e : jsval)
    (ds : option dsid) (cf : option string) (G G' : gmap string num)
    (res : Result) (g : geometry) :
  getData self s e ds cf G = (Return res, G') ->
  geom (select (rrd self) s cf) = Some g ->
  data res <> [] ->
  0 < step g /\
  mul (of_Z (Z.of_nat (length (data res)))) (of_Z (step g))
    = sub (endRowTime (rowWindow g (startTime_of s) (endTime_of (rrd self) e)))
          (startRowTime (rowWindow g (startTime_of s) (endTime_of (rrd self) e))) /\
  fst <$> head (data res)
    = Some (mul (startRowTime (rowWindow g (startTime_of s) (endTime_of (rrd self) e)))
                (of_Z 1000)) /\
  fst <$> last (data res)
    = Some (mul (sub (endRowTime (rowWindow g (startTime_of s)
                                    (endTime_of (rrd self) e)))
                     (of_Z (step g)))
                (of_Z 1000)).
Proof.
  intros H Hg Hne.
  destruct (series_int_bounds _ _ _ _ _ _ _ _ H Hne)
    as (d & g' & r & kL & a & b & _ & Hg' & _ & Hpos & Hab & _ & _ & _ & _ &
        HT & HE & _ & _ & Hdata).
  assert (g' = g) as -> by congruence. cbv zeta in *.
  split; [exact Hpos|]. rewrite HT, HE, Hdata, length_map_seq.
  rewrite !sub_Z, !mul_Z.
  split; [f_equal; nia|].
  destruct (Z.to_nat (b - a)) as [|n] eqn:En; [lia|].
  split.
  - simpl. f_equal. f_equal. lia.
  - rewrite seq_S, map_app. cbn [map]. rewrite last_snoc. cbn [fmap option_fmap option_map fst].
    f_equal. f_equal. nia.
Qed.


(** X4. A call changes no global variable other than [firstUpdated],
    and a call that throws changes none at all. *)
Theorem getData_global_frame (self : RrdQuery) (s : num) (e : jsval)
    (ds : option dsid) (cf : option string) (G : gmap string num) (key : string) :
  key <> "firstUpdated"%string ->
  (getData self s e ds cf G).2 !! key = G !! key /\
  (forall x : exn, (getData self s e ds cf G).1 = Throw x ->
     (getData self s e ds cf G).2 = G).
Proof.
  intros Hk. destruct (getData self s e ds cf G) as [o G'] eqn:H. cbn [fst snd].
  destruct o as [res|x].
  - apply getData_Return in H as (d & g & r & r' & H).
    destruct H as (_ & _ & _ & _ & _ & _ & _ & HG). cbv zeta in HG. split.
    + rewrite HG. apply lookup_insert_ne. congruence.
    + intros x Hx. discriminate Hx.
  - apply getData_Throw in H. subst G'. split; [reflexivity|]. intros; reflexivity.
Qed.

Lemma last_filter_last {A : Type} (P : A -> bool) (l : list A) (x : A) :
  last l = Some x -> P x = true -> last (List.filter P l) = Some x.
Proof.
  intros Hl HP. apply last_Some in Hl as (l' & ->).
  rewrite List.filter_app. cbn [List.filter]. rewrite HP. apply last_snoc.
Qed.

(** X5. When an archive with the requested function covers the start
    time, or when the last archive of the file has the requested
    function, the call reads the series from the very archive the
    selection rule names, with that archive's step and row times. *)
Theorem series_from_selected_archive (self : RrdQuery) (s : num) (e : jsval)
    (ds : option dsid) (cf : option string) (G G' : gmap string num) (res : Result) :
  getData self s e ds cf G = (Return res, G') ->
  (is_Some (List.find (fun r => matchesCF (cfName_of cf) r
                                && le (coverageFloor (getLastUpdate (rrd self)) r)
                                      (startTime_of s))
                      (rras (rrd self))) \/
   exists r', last (rras (rrd self)) = Some r' /\ getCFName r' = cfName_of cf) ->
  exists (d : DS) (r : RRA),
    getDS (rrd self) (dsId_of ds) = Return d /\
    selectArchive (getLastUpdate (rrd self)) (startTime_of s) (cfName_of cf)
      (rras (rrd self)) = Some r /\
    rra (select (rrd self) s cf) = Some r /\
    geom (select (rrd self) s cf) = Some (geometry_of (getLastUpdate (rrd self)) r) /\
    forall k : nat, (k < length (data res))%nat ->
      snd <$> data res !! k
      = Some (getEl r
                (add (startRowIndex
                        (rowWindow (geometry_of (getLastUpdate (rrd self)) r)
                           (startTime_of s) (endTime_of (rrd self) e)))
                     (of_Z (Z.of_nat k)))
                (getIdx d)).
Proof.
  intros H Hsel.
  destruct (series_shape _ _ _ _ _ _ _ _ H)
    as (d & g & r & n & Hds & Hg & _ & Hr & Hdata & _ & _).
  cbv zeta in Hdata.
  assert (Hsa : selectArchive (getLastUpdate (rrd self)) (startTime_of s)
                  (cfName_of cf) (rras (rrd self)) = Some r).
  { rewrite select_rra in Hr. unfold selectArchive.
    destruct Hsel as [[r0 Hf]|(r' & Hl & Hcf)].
    - rewrite Hf in Hr |- *. exact Hr.
    - destruct (List.find _ (rras (rrd self))); [exact Hr|].
      rewrite Hl in Hr. assert (r' = r) as -> by congruence.
      apply last_filter_last; [exact Hl|].
      unfold matchesCF. now apply String.eqb_eq. }
  assert (Hg' : geom (select (rrd self) s cf)
                = Some (geometry_of (getLastUpdate (rrd self)) r)).
  { rewrite select_geometry, Hsa. reflexivity. }
  exists d, r. repeat (split; [assumption|]).
  assert (g = geometry_of (getLastUpdate (rrd self)) r) as <- by congruence.
  intros k Hk. rewrite Hdata in Hk |- *. rewrite length_map_seq in Hk.
  assert (Hlk := proj2 (lookup_map_seq
    (sample r (getIdx d) (step g)
       (startRowIndex (rowWindow g (startTime_of s) (endTime_of (rrd self) e)))
       (startRowTime (rowWindow g (startTime_of s) (endTime_of (rrd self) e))))
    n k _) (conj Hk eq_refl)).
  rewrite Hlk. reflexivity.
Qed.

(** X6. A call that throws throws one of three errors, tried in this
    order: the RangeError of the range test, the error of the data
    source lookup, and the TypeError for the consolidation function,
    which means that no archive has the function or that the archive
    left in [step] has a step of 0. *)
Theorem getData_error_kinds (self : RrdQuery) (s : num) (e : jsval)
    (ds : option dsid) (cf : option string) (G G' : gmap string num) (x : exn) :
  getData self s e ds cf G = (Throw x, G') ->
  (ge s (to_number e) = true /\
   x = RangeError [Lit "starttime must be less than endtime. ";
                   Lit "starttime: "; Val (Number s);
                   Lit "endtime: "; Val e]) \/
  (ge s (to_number e) = false /\ getDS (rrd self) (dsId_of ds) = Throw x) \/
  (ge s (to_number e) = false /\
   (exists d, getDS (rrd self) (dsId_of ds) = Return d) /\
   x = TypeError ("Unrecognised consolidation function: " ++ cfName_of cf) /\
   ((forall r, r ∈ rras (rrd self) -> getCFName r <> cfName_of cf) \/
    exists r, r ∈ rras (rrd self) /\ getCFName r = cfName_of cf /\ getStep r = 0)).
Proof.
  unfold getData. intros H.
  destruct (ge s (to_number e)) eqn:Hge.
  { left. split; [reflexivity|congruence]. }
  right. destruct (getDS (rrd self) (dsId_of ds)) as [d|x'] eqn:Hds.
  2:{ left. split; [reflexivity|congruence]. }
  right. split; [reflexivity|]. split; [eauto|].
  destruct (scan_geom_cases (getLastUpdate (rrd self)) (startTime_of s) (cfName_of cf)
              (rras (rrd self)) vars0) as [[Hg Hno]|(r & Hin & Hcf & Hg)];
    fold (select (rrd self) s cf) in Hg; rewrite Hg in H.
  { cbn [geom vars0] in H. split; [congruence|]. left. exact Hno. }
  change (step (geometry_of (getLastUpdate (rrd self)) r)) with (getStep r) in H.
  destruct (Z.eqb_spec (getStep r) 0) as [E|_].
  { split; [congruence|]. right. exists r. auto. }
  exfalso.
  destruct (scan_rra_defined (getLastUpdate (rrd self)) (startTime_of s)
              (cfName_of cf) (rras (rrd self)) vars0) as (r0 & Hr0).
  { intros [? Hx]. discriminate Hx. }
  { fold (select (rrd self) s cf). rewrite Hg. eauto. }
  fold (select (rrd self) s cf) in Hr0. rewrite Hr0, getRRA_last in H.
  destruct (last (rras (rrd self))) eqn:El; [discriminate H|].
  apply last_None in El. rewrite El in Hin. inversion Hin.
Qed.

Lemma Qctrunc_lower (q : Qc) (k : Z) : (inject_Z k <= q)%Q -> k <= Qctrunc q.
Proof.
  unfold Qle, Qctrunc. cbn [inject_Z Qnum Qden]. intros H.
  rewrite <- (Z.quot_mul k (Zpos (Qden q))) by discriminate.
  apply Z.quot_le_mono; lia.
Qed.

Lemma quantize_lower (x : Qc) (s k : Z) :
  0 < s -> le (of_Z (s * k)) (Fin x) = true ->
  k <= Qctrunc (Qcdiv x (Q2Qc (inject_Z s))).
Proof.
  intros Hs H. apply Qctrunc_lower.
  unfold le, of_Z, Qcleb in H. apply Qle_bool_iff in H.
  cbn [this Q2Qc] in H. rewrite Qred_correct in H.
  unfold Qcdiv, Qcmult, Qcinv. cbn [this Q2Qc]. rewrite !Qred_correct.
  apply Qle_shift_div_l.
  - change 0%Q with (inject_Z 0). rewrite <- Zlt_Qlt. exact Hs.
  - rewrite <- inject_Z_mult, Z.mul_comm. exact H.
Qed.

(** X7. A query whose start time is at or after the last row time of the
    chosen archive gets an empty series, not an error. *)
Theorem start_after_last_row_is_empty (self : RrdQuery) (s : num) (e : jsval)
    (ds : option dsid) (cf : option string) (G G' : gmap string num)
    (res : Result) (g : geometry) :
  getData self s e ds cf G = (Return res, G') ->
  geom (select (rrd self) s cf) = Some g ->
  le (lastRowTime g) (startTime_of s) = true ->
  data res = [].
Proof.
  intros H Hg Hle. destruct (data res) as [|p l] eqn:El; [reflexivity|]. exfalso.
  destruct (series_int_bounds _ _ _ _ _ _ _ _ H)
    as (d & g' & r & kL & a & b & _ & Hg' & _ & Hpos & Hab & _ & _ & HL & HF &
        HT & HE & _).
  { rewrite El. discriminate. }
  assert (g' = g) as -> by congruence. cbv zeta in *.
  assert (Hs : step g <> 0) by lia.
  destruct (startTime_of s) as [|x]; [rewrite HL in Hle; discriminate Hle|].
  destruct (endTime_of (rrd self) e) as [|y].
  { destruct (rowWindow_NaN_r g (Fin x)) as [Hn _]. rewrite Hn in HT. discriminate HT. }
  rewrite HL in Hle. apply (quantize_lower x (step g) kL Hpos) in Hle.
  unfold rowWindow in HT, HE. cbn [startRowTime endRowTime] in HT, HE.
  rewrite HL, HF, !quantize, ?max_Z, !min_Z in HT by exact Hs.
  rewrite HL, !quantize, !min_Z in HE by exact Hs.
  apply of_Z_inj in HT, HE. nia.
Qed.

(** *** The properties at sample inputs *)

Lemma rows_read_within_archive_witness :
  call1 = (Return result1, call1.2) /\
  geom (select file1 (of_Z 500000) None) = Some geom1 /\
  Z.of_nat (length (data result1)) <= Z.max 0 (rraRowCount geom1) /\
  forall k : nat, (k < length (data result1))%nat ->
    exists i : Z,
      add (startRowIndex (rowWindow geom1 (startTime_of (of_Z 500000))
                            (endTime_of file1 (Number (of_Z 1000000)))))
          (of_Z (Z.of_nat k)) = of_Z i /\
      0 <= i < rraRowCount geom1.
Proof.
  assert (H1 : call1 = (Return result1, call1.2)) by (vm_compute; reflexivity).
  assert (H2 : geom (select file1 (of_Z 500000) None) = Some geom1)
    by (vm_compute; reflexivity).
  split; [exact H1|]. split; [exact H2|].
  exact (rows_read_within_archive query1 (of_Z 500000) (Number (of_Z 1000000))
           None None ∅ call1.2 result1 geom1 H1 H2).
Defined.

Lemma series_endpoints_witness :
  call1 = (Return result1, call1.2) /\
  geom (select file1 (of_Z 500000) None) = Some geom1 /\
  data result1 <> [] /\
  0 < step geom1 /\
  mul (of_Z (Z.of_nat (length (data result1)))) (of_Z (step geom1))
    = sub (endRowTime (rowWindow geom1 (startTime_of (of_Z 500000))
                         (endTime_of file1 (Number (of_Z 1000000)))))
          (startRowTime (rowWindow geom1 (startTime_of (of_Z 500000))
                           (endTime_of file1 (Number (of_Z 1000000))))) /\
  fst <$> head (data result1)
    = Some (mul (startRowTime (rowWindow geom1 (startTime_of (of_Z 500000))
                                 (endTime_of file1 (Number (of_Z 1000000)))))
                (of_Z 1000)) /\
  fst <$> last (data result1)
    = Some (mul (sub (endRowTime (rowWindow geom1 (startTime_of (of_Z 500000))
                                    (endTime_of file1 (Number (of_Z 1000000)))))
                     (of_Z (step geom1)))
                (of_Z 1000)).
Proof.
  assert (H1 : call1 = (Return result1, call1.2)) by (vm_compute; reflexivity).
  assert (H2 : geom (select file1 (of_Z 500000) None) = Some geom1)
    by (vm_compute; reflexivity).
  assert (H3 : data result1 <> []) by (vm_compute; discriminate).
  split; [exact H1|]. split; [exact H2|]. split; [exact H3|].
  exact (series_endpoints query1 (of_Z 500000) (Number (of_Z 1000000))
           None None ∅ call1.2 result1 geom1 H1 H2 H3).
Defined.


Lemma getData_global_frame_witness :
  "lastUpdated"%string <> "firstUpdated"%string /\
  call1.2 !! "lastUpdated"%string = (∅ : gmap string num) !! "lastUpdated"%string.
Proof.
  assert (H : "lastUpdated"%string <> "firstUpdated"%string) by discriminate.
  split; [exact H|].
  exact (proj1 (getData_global_frame query1 (of_Z 500000) (Number (of_Z 1000000))
                  None None ∅ "lastUpdated" H)).
Defined.

Lemma series_from_selected_archive_witness :
  call1 = (Return result1, call1.2) /\
  is_Some (List.find (fun r => matchesCF (cfName_of None) r
                               && le (coverageFloor (getLastUpdate file1) r)
                                     (startTime_of (of_Z 500000)))
                     (rras file1)) /\
  exists (d : DS) (r : RRA),
    getDS file1 (dsId_of None) = Return d /\
    selectArchive (getLastUpdate file1) (startTime_of (of_Z 500000)) (cfName_of None)
      (rras file1) = Some r /\
    rra (select file1 (of_Z 500000) None) = Some r /\
    geom (select file1 (of_Z 500000) None)
      = Some (geometry_of (getLastUpdate file1) r) /\
    forall k : nat, (k < length (data result1))%nat ->
      snd <$> data result1 !! k
      = Some (getEl r
                (add (startRowIndex
                        (rowWindow (geometry_of (getLastUpdate file1) r)
                           (startTime_of (of_Z 500000))
                           (endTime_of file1 (Number (of_Z 1000000)))))
                     (of_Z (Z.of_nat k)))
                (getIdx d)).
Proof.
  assert (H1 : call1 = (Return result1, call1.2)) by (vm_compute; reflexivity).
  assert (H2 : is_Some (List.find
                          (fun r => matchesCF (cfName_of None) r
                                    && le (coverageFloor (getLastUpdate file1) r)
                                          (startTime_of (of_Z 500000)))
                          (rras file1)))
    by (vm_compute; eexists; reflexivity).
  split; [exact H1|]. split; [exact H2|].
  exact (series_from_selected_archive query1 (of_Z 500000) (Number (of_Z 1000000))
           None None ∅ call1.2 result1 H1 (or_introl H2)).
Defined.

Lemma getData_error_kinds_witness :
  getData query1 (of_Z 500000) (Number (of_Z 1000000)) None (Some "BOGUS"%string) ∅
  = (Throw (TypeError "Unrecognised consolidation function: BOGUS"), ∅) /\
  ge (of_Z 500000) (to_number (Number (of_Z 1000000))) = false.
Proof.
  assert (H : getData query1 (of_Z 500000) (Number (of_Z 1000000)) None
                (Some "BOGUS"%string) ∅
              = (Throw (TypeError "Unrecognised consolidation function: BOGUS"), ∅))
    by (vm_compute; reflexivity).
  split; [exact H|].
  destruct (getData_error_kinds query1 (of_Z 500000) (Number (of_Z 1000000)) None
              (Some "BOGUS"%string) ∅ ∅ _ H) as [[_ Hx]|[[Hge _]|[Hge _]]].
  - discriminate Hx.
  - exact Hge.
  - exact Hge.
Defined.

Lemma start_after_last_row_is_empty_witness :
  (exists res G', getData query1 (of_Z 2000000) Undefined None None ∅ = (Return res, G')) /\
  geom (select file1 (of_Z 2000000) None) = Some geom1 /\
  le (lastRowTime geom1) (startTime_of (of_Z 2000000)) = true /\
  data (default no_result
          (returned (getData query1 (of_Z 2000000) Undefined None None ∅))) = [].
Proof.
  assert (H1 : getData query1 (of_Z 2000000) Undefined None None ∅
               = (Return (default no_result
                            (returned (getData query1 (of_Z 2000000) Undefined
                                         None None ∅))),
                  (getData query1 (of_Z 2000000) Undefined None None ∅).2))
    by (vm_compute; reflexivity).
  assert (H2 : geom (select file1 (of_Z 2000000) None) = Some geom1)
    by (vm_compute; reflexivity).
  assert (H3 : le (lastRowTime geom1) (startTime_of (of_Z 2000000)) = true)
    by (vm_compute; reflexivity).
  split; [eexists _, _; exact H1|]. split; [exact H2|]. split; [exact H3|].
  exact (start_after_last_row_is_empty query1 (of_Z 2000000) Undefined None None ∅
           _ _ geom1 H1 H2 H3).
Defined.

End GetDataExtras.

(** ** More on RrdQueryRemote *)

Module RemoteExtras.
Import Remote RemoteInvariants.

Lemma chainRequest_heap_lookup (w : world) (h : nat) (d : Deferred) :
  heap (chainRequest w).2 !! h = Some d ->
  exists d0, heap w !! h = Some d0 /\ fired d = fired d0 /\ d_url d = d_url d0.
Proof.
  unfold chainRequest. destruct (_download (self w)) as [h0|]; cbn [snd heap].
  - destruct (decide (h0 = h)) as [->|Hne].
    + rewrite list_lookup_alter_eq. destruct (heap w !! h) as [d0|]; [|discriminate].
      cbn. intros E. assert (d = addBoth d0 (nret w)) as -> by congruence. eauto.
    + rewrite list_lookup_alter_ne by exact Hne. eauto.
  - eauto.
Qed.

Lemma chainRequest_download (w : world) :
  _download (self (chainRequest w).2) = _download (self w).
Proof.
  unfold chainRequest. destruct (_download (self w)) eqn:E; cbn [snd self]; now rewrite E.
Qed.

Lemma chainRequest_length (w : world) :
  length (heap (chainRequest w).2) = length (heap w).
Proof.
  unfold chainRequest. destruct (_download (self w)); cbn [snd heap];
    [apply length_alter|reflexivity].
Qed.

Lemma jrrd_getData_pending (endTime : num) (w : world) :
  pending_is_current w -> pending_is_current (jrrd_getData endTime w).2.
Proof.
  intros Hinv h d Hh Hf. unfold jrrd_getData in *.
  rewrite chainRequest_download.
  apply chainRequest_heap_lookup in Hh as (d0 & Hh & Hfd & _). rewrite Hfd in Hf.
  set (restart := match _download (self w) with
                  | Some h0 => match heap w !! h0 with
                               | Some d1 => Z.ltb (-1) (fired d1) && _
                               | None => false
                               end
                  | None => true
                  end) in *.
  destruct restart eqn:Hr; [|exact (Hinv h d0 Hh Hf)].
  cbn [startDownload self heap set_download _download] in *.
  destruct (decide (h < length (heap w))%nat) as [Hlt|Hge].
  - rewrite lookup_app_l in Hh by exact Hlt.
    pose proof (Hinv h d0 Hh Hf) as Hcur. exfalso.
    subst restart. rewrite Hcur, Hh, Hf in Hr. discriminate Hr.
  - pose proof (lookup_lt_Some _ _ _ Hh) as Hb.
    rewrite length_app in Hb. cbn [length] in Hb.
    f_equal. lia.
Qed.

Lemma complete_pending (h : nat) (res : option Z) (w : world) :
  pending_is_current w -> pending_is_current (complete h res w).
Proof.
  intros Hinv h' d' Hh Hf. unfold complete in *.
  destruct (heap w !! h) as [d|] eqn:E; [|exact (Hinv h' d' Hh Hf)].
  destruct (Z.eqb_spec (fired d) (-1)) as [Hp|_]; [|exact (Hinv h' d' Hh Hf)].
  cbn [heap self] in *.
  assert (Hd : _download (match res with
                          | Some lu => set_lastUpdate (self w) (of_Z lu)
                          | None => self w
                          end) = _download (self w)) by now destruct res.
  rewrite Hd. destruct (decide (h = h')) as [->|Hne].
  - rewrite list_lookup_insert_eq in Hh by exact (lookup_lt_Some _ _ _ E).
    assert (d' = {| d_url := d_url d;
                    fired := match res with Some _ => 0 | None => 1 end;
                    chained := chained d |}) as -> by congruence.
    cbn [fired] in Hf. destruct res; discriminate Hf.
  - rewrite list_lookup_insert_ne in Hh by exact Hne. exact (Hinv h' d' Hh Hf).
Qed.

Lemma jrrd_run_pending (es : list JrrdRemote.event) (w : world) :
  pending_is_current w -> pending_is_current (JrrdRemote.run es w).
Proof.
  revert w. induction es as [|e es IH]; intros w Hw; [exact Hw|].
  apply IH. destruct e; [apply jrrd_getData_pending|apply complete_pending]; exact Hw.
Qed.

(** X8. With jrrd.js, whatever the page does to a fresh RrdQueryRemote,
    at most one download is outstanding at any time: two downloads that
    have not fired are the same one, and it is the current download. *)
Theorem jrrd_at_most_one_outstanding (u un : string) (es : list JrrdRemote.event)
    (h1 h2 : nat) (d1 d2 : Deferred) :
  heap (JrrdRemote.run es (create u un)) !! h1 = Some d1 ->
  heap (JrrdRemote.run es (create u un)) !! h2 = Some d2 ->
  fired d1 = -1 -> fired d2 = -1 ->
  h1 = h2 /\ _download (self (JrrdRemote.run es (create u un))) = Some h1.
Proof.
  intros H1 H2 F1 F2.
  assert (Hinv : pending_is_current (JrrdRemote.run es (create u un))).
  { apply jrrd_run_pending. intros h d Hh. discriminate Hh. }
  pose proof (Hinv h1 d1 H1 F1) as E1. pose proof (Hinv h2 d2 H2 F2) as E2.
  split; [congruence|exact E1].
Qed.

Lemma jrrd_at_most_one_outstanding_witness :
  let w := JrrdRemote.run [JrrdRemote.CallGetData (of_Z 1000000);
                           JrrdRemote.CallGetData (of_Z 1000000)]
             (create "cpu.rrd" "%") in
  let d := {| d_url := "cpu.rrd"; fired := -1; chained := [0%nat; 1%nat] |} in
  heap w !! 0%nat = Some d /\ fired d = -1 /\
  0%nat = 0%nat /\ _download (self w) = Some 0%nat.
Proof.
  cbv zeta.
  assert (H : heap (JrrdRemote.run [JrrdRemote.CallGetData (of_Z 1000000);
                                    JrrdRemote.CallGetData (of_Z 1000000)]
                      (create "cpu.rrd" "%")) !! 0%nat
              = Some {| d_url := "cpu.rrd"; fired := -1; chained := [0%nat; 1%nat] |})
    by (vm_compute; reflexivity).
  split; [exact H|]. split; [reflexivity|].
  exact (jrrd_at_most_one_outstanding "cpu.rrd" "%" _ 0 0 _ _ H H eq_refl eq_refl).
Defined.

(** *** No request is lost *)

Lemma concat_chained_alter (l : list Deferred) (h ret : nat) :
  (h < length l)%nat ->
  concat (chained <$> alter (fun d => addBoth d ret) h l)
  ≡ₚ concat (chained <$> l) ++ [ret].
Proof.
  revert h. induction l as [|d l IH]; intros h Hh; [simpl in Hh; lia|].
  destruct h as [|h]; cbn.
  - rewrite <- !app_assoc. apply Permutation_app_head. apply Permutation_app_comm.
  - rewrite <- app_assoc. apply Permutation_app_head. apply IH. simpl in Hh. lia.
Qed.

Lemma chainRequest_conserves (w : world) (h : nat) :
  _download (self w) = Some h -> (h < length (heap w))%nat ->
  concat (chained <$> heap w) ≡ₚ seq 0 (nret w) ->
  current_valid (chainRequest w).2 /\
  concat (chained <$> heap (chainRequest w).2) ≡ₚ seq 0 (nret (chainRequest w).2).
Proof.
  intros Hd Hh Hc. split.
  - intros h'. rewrite chainRequest_download, chainRequest_length, Hd.
    intros E. assert (h' = h) as -> by congruence. exact Hh.
  - unfold chainRequest. rewrite Hd. cbn [snd heap nret].
    rewrite concat_chained_alter by exact Hh. rewrite seq_S. cbn [Nat.add].
    now apply Permutation_app_tail.
Qed.

Lemma startDownload_conserves (w : world) :
  concat (chained <$> heap w) ≡ₚ seq 0 (nret w) ->
  _download (self (startDownload w)) = Some (length (heap w)) /\
  (length (heap w) < length (heap (startDownload w)))%nat /\
  concat (chained <$> heap (startDownload w)) ≡ₚ seq 0 (nret (startDownload w)).
Proof.
  intros Hc. unfold startDownload. cbn [self heap nret set_download _download].
  split; [reflexivity|]. split; [rewrite length_app; simpl; lia|].
  rewrite fmap_app, concat_app. cbn. rewrite !app_nil_r. exact Hc.
Qed.

Lemma complete_conserves (h : nat) (res : option Z) (w : world) :
  current_valid w -> concat (chained <$> heap w) ≡ₚ seq 0 (nret w) ->
  current_valid (complete h res w) /\
  concat (chained <$> heap (complete h res w)) ≡ₚ seq 0 (nret (complete h res w)).
Proof.
  intros Hv Hc. unfold complete.
  destruct (heap w !! h) as [d|] eqn:E; [|now split].
  destruct (Z.eqb (fired d) (-1)); [|now split].
  cbn [heap self nret]. split.
  - unfold current_valid. cbn [heap self]. intros h'. rewrite length_insert.
    assert (Hd : _download (match res with
                            | Some lu => set_lastUpdate (self w) (of_Z lu)
                            | None => self w
                            end) = _download (self w)) by now destruct res.
    rewrite Hd. apply Hv.
  - rewrite list_fmap_insert. cbn [chained].
    rewrite list_insert_id; [exact Hc|]. rewrite list_lookup_fmap, E. reflexivity.
Qed.

Lemma jarmon_getData_conserves (endTime : jsval) (w : world) :
  current_valid w -> concat (chained <$> heap w) ≡ₚ seq 0 (nret w) ->
  current_valid (getData endTime w).2 /\
  concat (chained <$> heap (getData endTime w).2) ≡ₚ seq 0 (nret (getData endTime w).2).
Proof.
  intros Hv Hc. unfold getData, _callRemote.
  destruct (JsNum.lt (lastUpdate (self w)) (div (to_number endTime) (of_Z 1000))).
  - cbn [self set_download _download].
    destruct (startDownload_conserves
                {| self := set_download (self w) None; heap := heap w; nret := nret w |} Hc)
      as (Hd & Hl & Hc').
    exact (chainRequest_conserves _ _ Hd Hl Hc').
  - destruct (_download (self w)) as [h|] eqn:Hd.
    + exact (chainRequest_conserves w h Hd (Hv h Hd) Hc).
    + destruct (startDownload_conserves w Hc) as (Hd' & Hl & Hc').
      exact (chainRequest_conserves _ _ Hd' Hl Hc').
Qed.

Lemma jrrd_getData_conserves (endTime : num) (w : world) :
  current_valid w -> concat (chained <$> heap w) ≡ₚ seq 0 (nret w) ->
  current_valid (jrrd_getData endTime w).2 /\
  concat (chained <$> heap (jrrd_getData endTime w).2)
  ≡ₚ seq 0 (nret (jrrd_getData endTime w).2).
Proof.
  intros Hv Hc. unfold jrrd_getData.
  destruct (_download (self w)) as [h|] eqn:Hd.
  - destruct (match heap w !! h with
              | Some d => _
              | None => false
              end).
    + destruct (startDownload_conserves w Hc) as (Hd' & Hl & Hc').
      exact (chainRequest_conserves _ _ Hd' Hl Hc').
    + exact (chainRequest_conserves w h Hd (Hv h Hd) Hc).
  - destruct (startDownload_conserves w Hc) as (Hd' & Hl & Hc').
    exact (chainRequest_conserves _ _ Hd' Hl Hc').
Qed.

(** X9. Whatever the page does to a fresh RrdQueryRemote, in jarmon.js
    and in jrrd.js, every request made so far is chained on exactly one
    download: the chained lists of all downloads together hold each
    request once. *)
Theorem requests_chained_exactly_once (u un : string)
    (es : list Remote.event) (js : list JrrdRemote.event) :
  concat (chained <$> heap (run es (create u un)))
    ≡ₚ seq 0 (nret (run es (create u un))) /\
  concat (chained <$> heap (JrrdRemote.run js (create u un)))
    ≡ₚ seq 0 (nret (JrrdRemote.run js (create u un))).
Proof.
  assert (H0 : current_valid (create u un) /\
               concat (chained <$> heap (create u un)) ≡ₚ seq 0 (nret (create u un))).
  { split; [intros h Hh; discriminate Hh|reflexivity]. }
  split.
  - generalize dependent (create u un). induction es as [|e es IH]; intros w [Hv Hc].
    + exact Hc.
    + apply IH. destruct e; [apply jarmon_getData_conserves|apply complete_conserves];
        assumption.
  - generalize dependent (create u un). induction js as [|e js IH]; intros w [Hv Hc].
    + exact Hc.
    + apply IH. destruct e; [apply jrrd_getData_conserves|apply complete_conserves];
        assumption.
Qed.

(** *** Calls served by the download at hand *)

Lemma jarmon_fresh_call (endTime : jsval) (w : world) (h : nat) (d : Deferred) :
  _download (self w) = Some h ->
  heap w !! h = Some d ->
  JsNum.lt (lastUpdate (self w)) (div (to_number endTime) (of_Z 1000)) = false ->
  self (getData endTime w).2 = self w /\
  nret (getData endTime w).2 = S (nret w) /\
  length (heap (getData endTime w).2) = length (heap w) /\
  heap (getData endTime w).2 !! h = Some (addBoth d (nret w)).
Proof.
  intros Hd Hh Hlt. unfold getData. rewrite Hlt. unfold _callRemote. rewrite Hd.
  unfold chainRequest. rewrite Hd. cbn [fst snd heap self nret].
  split; [reflexivity|]. split; [reflexivity|]. split; [apply length_alter|].
  rewrite list_lookup_alter_eq, Hh. reflexivity.
Qed.

(** X10. With jarmon.js, once a download is at hand, any run of calls
    whose end times are not after the last update time the object knows
    starts no download: every request of the run is chained, in order,
    on the download at hand. *)
Theorem jarmon_calls_within_known_range (es : list jsval) (w : world) (h : nat)
    (d : Deferred) :
  _download (self w) = Some h ->
  heap w !! h = Some d ->
  (forall endTime, endTime ∈ es ->
     JsNum.lt (lastUpdate (self w)) (div (to_number endTime) (of_Z 1000)) = false) ->
  length (heap (run (CallGetData <$> es) w)) = length (heap w) /\
  _download (self (run (CallGetData <$> es) w)) = Some h /\
  heap (run (CallGetData <$> es) w) !! h
    = Some {| d_url := d_url d; fired := fired d;
              chained := chained d ++ seq (nret w) (length es) |}.
Proof.
  revert w d. induction es as [|e es IH]; intros w d Hd Hh Hes.
  { cbn. rewrite app_nil_r. split; [reflexivity|]. split; [exact Hd|].
    rewrite Hh. now destruct d. }
  assert (He : JsNum.lt (lastUpdate (self w)) (div (to_number e) (of_Z 1000)) = false)
    by (apply Hes; left).
  destruct (jarmon_fresh_call e w h d Hd Hh He) as (Hs & Hn & Hl & Hh').
  rewrite fmap_cons.
  change (run (CallGetData e :: (CallGetData <$> es)) w)
    with (run (CallGetData <$> es) (getData e w).2).
  destruct (IH (getData e w).2 (addBoth d (nret w))) as (IH1 & IH2 & IH3).
  - rewrite Hs. exact Hd.
  - exact Hh'.
  - intros x Hx. rewrite Hs. apply Hes. now right.
  - rewrite IH1, IH2, IH3, Hl, Hn. split; [reflexivity|]. split; [reflexivity|].
    cbn [addBoth d_url fired chained length]. rewrite <- app_assoc. reflexivity.
Qed.

Lemma jarmon_calls_within_known_range_witness :
  let w := run [CallGetData (Number (of_Z 1000000)); Complete 0 (Some 2000)]
             (create "cpu.rrd" "%") in
  let d := {| d_url := "cpu.rrd"; fired := 0; chained := [0%nat] |} in
  _download (self w) = Some 0%nat /\
  heap w !! 0%nat = Some d /\
  length (heap (run (CallGetData <$> [Number (of_Z 1500000); Undefined; Null]) w)) = 1%nat /\
  heap (run (CallGetData <$> [Number (of_Z 1500000); Undefined; Null]) w) !! 0%nat
    = Some {| d_url := "cpu.rrd"; fired := 0; chained := [0; 1; 2; 3]%nat |}.
Proof.
  cbv zeta.
  set (w := run [CallGetData (Number (of_Z 1000000)); Complete 0 (Some 2000)]
              (create "cpu.rrd" "%")).
  assert (H1 : _download (self w) = Some 0%nat) by (vm_compute; reflexivity).
  assert (H2 : heap w !! 0%nat
               = Some {| d_url := "cpu.rrd"; fired := 0; chained := [0%nat] |})
    by (vm_compute; reflexivity).
  assert (H3 : forall endTime, endTime ∈ [Number (of_Z 1500000); Undefined; Null] ->
     JsNum.lt (lastUpdate (self w)) (div (to_number endTime) (of_Z 1000)) = false).
  { intros x Hx. repeat (apply elem_of_cons in Hx as [->|Hx]; [vm_compute; reflexivity|]).
    inversion Hx. }
  split; [exact H1|]. split; [exact H2|].
  destruct (jarmon_calls_within_known_range _ w 0 _ H1 H2 H3) as (Hl & _ & Hh).
  split; [exact Hl|exact Hh].
Defined.

End RemoteExtras.

(** ** jarmon.Parallimiter: what it keeps *)

Module LimiterFacts.
Import Limiter JsNumFacts.

Lemma lt_of_Z_mono (a b : Z) (l : num) :
  a <= b -> lt (of_Z a) l = false -> lt (of_Z b) l = false.
Proof.
  intros Hab. destruct l as [|q]; [reflexivity|].
  unfold lt, of_Z, Qcltb. rewrite !negb_false_iff, !Qle_bool_iff.
  cbn [this Q2Qc]. rewrite !Qred_correct. intros H.
  eapply Qle_trans; [exact H|]. rewrite <- Zle_Qle. exact Hab.
Qed.

Lemma last_removelast {A : Type} (q : list A) (x : A) :
  last q = Some x -> q = removelast q ++ [x].
Proof.
  induction q as [|a q IH]; [discriminate|].
  destruct q as [|b q]; [intros E; cbn in *; congruence|].
  intros E. rewrite last_cons_cons in E.
  change (removelast (a :: b :: q)) with (a :: removelast (b :: q)).
  cbn [app]. f_equal. exact (IH E).
Qed.

Lemma removelast_nonempty {A : Type} (a : A) (q : list A) :
  removelast (a :: q) <> [] -> q <> [].
Proof. destruct q; [intros H; now contradiction H|discriminate]. Qed.

Lemma NoDup_take_out (l : list nat) (d : nat) :
  NoDup l -> d ∈ l -> l ≡ₚ d :: filter (fun x => x <> d) l.
Proof.
  induction l as [|a l IH]; intros Hnd Hd; [inversion Hd|].
  apply NoDup_cons in Hnd as [Ha Hnd].
  apply elem_of_cons in Hd as [->|Hd].
  - rewrite filter_cons_False by (intros H; now apply H).
    apply Permutation_cons; [reflexivity|].
    clear IH. induction l as [|b l IH]; [reflexivity|].
    apply not_elem_of_cons in Ha as [Hab Ha]. apply NoDup_cons in Hnd as [_ Hnd].
    rewrite filter_cons_True by congruence. apply Permutation_cons; [reflexivity|].
    exact (IH Ha Hnd).
  - assert (a <> d) by (intros ->; contradiction).
    rewrite filter_cons_True by assumption.
    rewrite (IH Hnd Hd) at 1. apply Permutation_swap.
Qed.

Section Calls.
Context {J R : Type}.
Implicit Types (w : world J R) (es : list (event J R)).

Lemma _nextCall_flow w :
  flow (_nextCall w) = flow w /\ ndeferred (_nextCall w) = ndeferred w /\
  delivered (_nextCall w) = delivered w /\
  limit (self (_nextCall w)) = limit (self w).
Proof.
  unfold _nextCall.
  destruct (Z.ltb 0 _); [|now repeat split].
  destruct (lt _ _); [|now repeat split].
  destruct (last (_callQueue (self w))) as [x|] eqn:E; [|now repeat split].
  unfold flow. cbn [started self _callQueue ndeferred delivered limit].
  split; [|now repeat split].
  rewrite (last_removelast _ _ E) at 2. rewrite rev_app_distr. cbn [rev app].
  rewrite <- app_assoc. reflexivity.
Qed.

Lemma _nextCall_consistent w :
  map fst (flow w) = seq 0 (ndeferred w) ->
  (forall d, d ∈ running w -> d ∈ map fst (started w)) ->
  NoDup (running w) ->
  _currentCallCount (self w) = Z.of_nat (length (running w)) ->
  (_currentCallCount (self w) = 0 \/
   lt (of_Z (_currentCallCount (self w) - 1)) (limit (self w)) = true) ->
  (removelast (_callQueue (self w)) <> [] ->
   lt (of_Z (_currentCallCount (self w) + 1)) (limit (self w)) = false) ->
  map fst (started w) ≡ₚ running w ++ map fst (delivered w) ->
  consistent (_nextCall w).
Proof.
  intros Hids Hrs Hnd Hc Hb Hq Hacc.
  destruct (_nextCall_flow w) as (Hf & Hn & _ & _).
  destruct (_callQueue (self w)) as [|a q] eqn:Eq.
  { assert (_nextCall w = w) as ->.
    { unfold _nextCall. rewrite Eq. reflexivity. }
    constructor; try assumption. rewrite Eq. intros H. now contradiction H. }
  assert (Hpos : Z.ltb 0 (Z.of_nat (length (a :: q))) = true).
  { apply Z.ltb_lt. cbn [length]. lia. }
  destruct (lt (of_Z (_currentCallCount (self w))) (limit (self w))) eqn:Hlt.
  2:{ assert (_nextCall w = w) as ->.
      { unfold _nextCall. rewrite Eq, Hpos, Hlt. reflexivity. }
      constructor; try assumption. intros _. exact Hlt. }
  destruct (last (a :: q)) as [x|] eqn:El.
  2:{ apply last_None in El. discriminate El. }
  assert (Hnext : _nextCall w
                  = {| self := {| limit := limit (self w);
                                  _callQueue := removelast (a :: q);
                                  _currentCallCount := _currentCallCount (self w) + 1 |};
                       ndeferred := ndeferred w;
                       started := started w ++ [x];
                       running := running w ++ [x.1];
                       delivered := delivered w |}).
  { unfold _nextCall. rewrite Eq, Hpos, Hlt, El. reflexivity. }
  rewrite Hnext in *. clear Hnext.
  assert (Hx : x.1 ∉ map fst (started w)).
  { intros Hin. unfold flow in Hids. rewrite Eq, map_app in Hids.
    assert (Hnd' : NoDup (map fst (started w) ++ map fst (rev (a :: q)))).
    { rewrite Hids. apply NoDup_seq. }
    apply NoDup_app in Hnd' as (_ & Hdisj & _).
    apply (Hdisj _ Hin). apply list_elem_of_In, in_map, in_rev.
    rewrite rev_involutive, (last_removelast _ _ El).
    apply in_or_app. right. now left. }
  constructor; cbn [self started running delivered ndeferred _callQueue
                      _currentCallCount limit].
  - rewrite Hf. exact Hids.
  - intros d Hd. rewrite map_app. apply elem_of_app.
    apply elem_of_app in Hd as [Hd|Hd]; [left; now apply Hrs|right].
    apply list_elem_of_singleton in Hd. subst d. now left.
  - apply NoDup_app. split; [exact Hnd|]. split; [|apply NoDup_singleton].
    intros d Hd Hd'. apply list_elem_of_singleton in Hd'. subst d.
    apply Hx. now apply Hrs.
  - rewrite length_app. cbn [length]. lia.
  - right. replace (_currentCallCount (self w) + 1 - 1)
      with (_currentCallCount (self w)) by lia. exact Hlt.
  - exact Hq.
  - rewrite map_app. cbn [map]. rewrite Hacc.
    rewrite <- !app_assoc. apply Permutation_app_head. apply Permutation_app_comm.
Qed.

Lemma create_consistent (v : jsval) : consistent (create (J := J) (R := R) v).
Proof.
  constructor; cbn; try reflexivity.
  - intros d Hd. inversion Hd.
  - apply NoDup_nil_2.
  - now left.
  - intros H. now contradiction H.
Qed.

Lemma addCallable_consistent (c : J) w :
  consistent w -> consistent (addCallable c w).2.
Proof.
  intros [Hids Hrs Hnd Hc Hb Hq Hacc]. unfold addCallable. cbn [snd].
  apply _nextCall_consistent;
    cbn [self started running delivered ndeferred _callQueue _currentCallCount limit];
    try assumption.
  - unfold flow in *. cbn [self started _callQueue rev].
    rewrite app_assoc, map_app, Hids, seq_S. reflexivity.
  - intros Hne. apply removelast_nonempty in Hne.
    apply (lt_of_Z_mono (_currentCallCount (self w))); [lia|now apply Hq].
Qed.

Lemma finish_consistent (d : nat) (res : R) w :
  consistent w -> consistent (finish d res w).
Proof.
  intros Hw. pose proof Hw as [Hids Hrs Hnd Hc Hb Hq Hacc]. unfold finish.
  case_bool_decide as Hd; [|exact Hw].
  pose proof (NoDup_take_out _ _ Hnd Hd) as Hperm.
  assert (Hlen : length (running w)
                 = S (length (filter (fun x => x <> d) (running w)))).
  { rewrite Hperm at 1. reflexivity. }
  apply _nextCall_consistent;
    cbn [self started running delivered ndeferred _callQueue _currentCallCount limit];
    try assumption.
  - intros x Hx. apply list_elem_of_filter in Hx as [_ Hx]. now apply Hrs.
  - now apply NoDup_filter.
  - lia.
  - destruct Hb as [Hb|Hb]; [exfalso; lia|].
    destruct (decide (_currentCallCount (self w) - 1 = 0)) as [E|Hne]; [now left|].
    right. destruct (lt (of_Z (_currentCallCount (self w) - 1 - 1)) (limit (self w)))
      eqn:E; [reflexivity|].
    rewrite (lt_of_Z_mono (_currentCallCount (self w) - 1 - 1)
               (_currentCallCount (self w) - 1) _ ltac:(lia) E) in Hb.
    discriminate Hb.
  - intros Hne.
    replace (_currentCallCount (self w) - 1 + 1) with (_currentCallCount (self w)) by lia.
    apply Hq. intros E. rewrite E in Hne. now contradiction Hne.
  - rewrite Hacc, map_app. cbn [map fst]. rewrite Hperm at 1.
    cbn [app]. rewrite app_assoc. apply Permutation_cons_append.
Qed.

Lemma run_consistent es w : consistent w -> consistent (run es w).
Proof.
  revert w. induction es as [|e es IH]; intros w Hw; [exact Hw|].
  apply IH. destruct e; [now apply addCallable_consistent|now apply finish_consistent].
Qed.

Lemma react_limit (e : event J R) w : limit (self (react e w)) = limit (self w).
Proof.
  destruct e as [c|d res]; cbn [react].
  - unfold addCallable. cbn [snd]. now destruct (_nextCall_flow
      {| self := {| limit := limit (self w);
                    _callQueue := (ndeferred w, c) :: _callQueue (self w);
                    _currentCallCount := _currentCallCount (self w) |};
         ndeferred := S (ndeferred w); started := started w;
         running := running w; delivered := delivered w |}) as (_ & _ & _ & ->).
  - unfold finish. case_bool_decide; [|reflexivity].
    now destruct (_nextCall_flow
      {| self := {| limit := limit (self w);
                    _callQueue := _callQueue (self w);
                    _currentCallCount := _currentCallCount (self w) - 1 |};
         ndeferred := ndeferred w; started := started w;
         running := filter (fun x => x <> d) (running w);
         delivered := delivered w ++ [(d, res)] |}) as (_ & _ & _ & ->).
Qed.

Lemma run_limit es w : limit (self (run es w)) = limit (self w).
Proof.
  revert w. induction es as [|e es IH]; intros w; [reflexivity|].
  cbn [run foldl]. change (foldl _ (react e w) es) with (run es (react e w)).
  now rewrite IH, react_limit.
Qed.

Lemma react_flow (e : event J R) w :
  flow (react e w)
  = flow w ++ match e with Add c => [(ndeferred w, c)] | Finish _ _ => [] end /\
  ndeferred (react e w)
  = (ndeferred w + match e with Add _ => 1 | Finish _ _ => 0 end)%nat.
Proof.
  destruct e as [c|d res]; cbn [react].
  - unfold addCallable. cbn [snd].
    destruct (_nextCall_flow
      {| self := {| limit := limit (self w);
                    _callQueue := (ndeferred w, c) :: _callQueue (self w);
                    _currentCallCount := _currentCallCount (self w) |};
         ndeferred := S (ndeferred w); started := started w;
         running := running w; delivered := delivered w |}) as (-> & -> & _).
    unfold flow. cbn [self started _callQueue ndeferred rev].
    rewrite app_assoc. split; [reflexivity|lia].
  - unfold finish. case_bool_decide.
    + destruct (_nextCall_flow
        {| self := {| limit := limit (self w);
                      _callQueue := _callQueue (self w);
                      _currentCallCount := _currentCallCount (self w) - 1 |};
           ndeferred := ndeferred w; started := started w;
           running := filter (fun x => x <> d) (running w);
           delivered := delivered w ++ [(d, res)] |}) as (-> & -> & _).
      unfold flow. cbn [self started _callQueue ndeferred].
      rewrite app_nil_r. split; [reflexivity|lia].
    + rewrite app_nil_r. split; [reflexivity|lia].
Qed.

Lemma run_jobs es w :
  map snd (flow (run es w)) = map snd (flow w) ++ adds es.
Proof.
  revert w. induction es as [|e es IH]; intros w.
  { cbn. now rewrite app_nil_r. }
  cbn [run foldl]. change (foldl _ (react e w) es) with (run es (react e w)).
  rewrite IH. destruct (react_flow e w) as [-> _].
  rewrite map_app, <- app_assoc. f_equal.
  destruct e; reflexivity.
Qed.

(** X11. A Parallimiter never has more calls in progress than its limit
    (1 when the limit given is 0 or missing): after any sequence of
    [addCallable] calls and completions, [_currentCallCount] is the
    number of calls in progress and lies between 0 and the limit. *)
Theorem limiter_respects_limit (v : jsval) (L : Z) es :
  limit (self (create (J := J) (R := R) v)) = of_Z L ->
  _currentCallCount (self (run es (create v)))
    = Z.of_nat (length (running (run es (create v)))) /\
  0 <= _currentCallCount (self (run es (create v))) <= Z.max 0 L.
Proof.
  intros HL.
  pose proof (run_consistent es _ (create_consistent v)) as [_ _ _ Hc Hb _ _].
  rewrite run_limit, HL in Hb. split; [exact Hc|]. split; [lia|].
  destruct Hb as [->|Hb]; [lia|]. rewrite lt_Z in Hb. apply Z.ltb_lt in Hb. lia.
Qed.

(** X12. No call waits while a slot is free: whenever the queue is not
    empty, the number of calls in progress has reached the limit. *)
Theorem limiter_no_idle_slot (v : jsval) (L : Z) es :
  limit (self (create (J := J) (R := R) v)) = of_Z L ->
  _callQueue (self (run es (create v))) <> [] ->
  _currentCallCount (self (run es (create v))) = Z.max 0 L.
Proof.
  intros HL Hq.
  destruct (limiter_respects_limit v L es HL) as [_ Hb].
  pose proof (run_consistent es _ (create_consistent v)) as [_ _ _ _ _ Hi _].
  specialize (Hi Hq). rewrite run_limit, HL, lt_Z in Hi. apply Z.ltb_ge in Hi. lia.
Qed.

(** X13. Calls are made in the order in which they were added: the calls
    made so far, followed by the queue read from its end, are the calls
    added so far in order, and the k-th of them carries the k-th
    Deferred handed out. *)
Theorem limiter_fifo (v : jsval) es :
  map snd (started (run es (create v)) ++ rev (_callQueue (self (run es (create v)))))
    = adds es /\
  map fst (started (run es (create v)) ++ rev (_callQueue (self (run es (create v)))))
    = seq 0 (length (adds es)) /\
  ndeferred (run es (create v)) = length (adds es).
Proof.
  assert (Hj : map snd (flow (run es (create v))) = adds es)
    by (rewrite run_jobs; reflexivity).
  pose proof (run_consistent es _ (create_consistent v)) as [Hids _ _ _ _ _ _].
  unfold flow in Hj, Hids.
  assert (Hn : ndeferred (run es (create v)) = length (adds es)).
  { rewrite <- Hj, length_map. apply (f_equal length) in Hids.
    rewrite length_map, length_seq in Hids. now rewrite Hids. }
  split; [exact Hj|]. split; [|exact Hn]. rewrite <- Hn. exact Hids.
Qed.

(** X14. Every call made is either still in progress or has passed its
    result on, exactly once: the Deferreds of the calls made are all
    different, and they are those in progress together with those that
    were called back. *)
Theorem limiter_accounting (v : jsval) es :
  NoDup (map fst (started (run es (create v)))) /\
  map fst (started (run es (create v)))
    ≡ₚ running (run es (create v)) ++ map fst (delivered (run es (create v))).
Proof.
  pose proof (run_consistent es _ (create_consistent v)) as [Hids _ _ _ _ _ Hacc].
  split; [|exact Hacc].
  assert (Hnd : NoDup (map fst (flow (run es (create v))))).
  { rewrite Hids. apply NoDup_seq. }
  unfold flow in Hnd. rewrite map_app in Hnd. now apply NoDup_app in Hnd as (? & _).
Qed.

End Calls.

Lemma limiter_respects_limit_witness :
  let es := [Add "a"; Add "b"; Add "c"; Finish 0%nat true; Add "d"] in
  limit (self (create (J := string) (R := bool) (Number (of_Z 2)))) = of_Z 2 /\
  _currentCallCount (self (run es (create (J := string) (R := bool) (Number (of_Z 2)))))
    = Z.of_nat (length (running (run es (create (Number (of_Z 2)))))) /\
  0 <= _currentCallCount (self (run es (create (J := string) (R := bool)
                                          (Number (of_Z 2))))) <= Z.max 0 2.
Proof.
  cbv zeta. split; [reflexivity|].
  exact (limiter_respects_limit (J := string) (R := bool) (Number (of_Z 2)) 2
           [Add "a"; Add "b"; Add "c"; Finish 0%nat true; Add "d"] eq_refl).
Defined.

Lemma limiter_no_idle_slot_witness :
  let es := [Add "a"; Add "b"; Add "c"] in
  limit (self (create (J := string) (R := bool) Undefined)) = of_Z 1 /\
  _callQueue (self (run es (create (J := string) (R := bool) Undefined))) <> [] /\
  _currentCallCount (self (run es (create (J := string) (R := bool) Undefined)))
    = Z.max 0 1.
Proof.
  cbv zeta.
  assert (H : _callQueue (self (run [Add "a"; Add "b"; Add "c"]
                                  (create (J := string) (R := bool) Undefined))) <> [])
    by (vm_compute; discriminate).
  split; [reflexivity|]. split; [exact H|].
  exact (limiter_no_idle_slot (J := string) (R := bool) Undefined 1
           [Add "a"; Add "b"; Add "c"] eq_refl H).
Defined.

End LimiterFacts.

(** ** jarmon.Chart: switching data sources *)

Module ChartFacts.
Import Chart.

(** X15. Switching a label twice gives the list back; one switch keeps
    the length, the labels and the query objects of the list, and flips
    the flag of exactly the entries that carry the label. *)
Theorem switchDataEnabled_involutive {D : Type} (label : string)
    (data : list (string * D * bool)) :
  switchDataEnabled label (switchDataEnabled label data) = data /\
  map fst (switchDataEnabled label data) = map fst data /\
  forall (i : nat) (e : string * D * bool),
    data !! i = Some e ->
    switchDataEnabled label data !! i
    = Some (e.1, if String.eqb e.1.1 label then negb e.2 else e.2).
Proof.
  unfold switchDataEnabled. split; [|split].
  - rewrite map_map. rewrite <- (map_id data) at 2. apply map_ext.
    intros [[l d] b]. cbn [fst snd].
    destruct (String.eqb l label) eqn:E; cbn [fst snd]; [|now rewrite E].
    now rewrite E, negb_involutive.
  - rewrite map_map. apply map_ext. intros [[l d] b]. cbn [fst snd].
    now destruct (String.eqb l label).
  - intros i [[l d] b] Hi.
    change (map ?f data) with (f <$> data). rewrite list_lookup_fmap, Hi.
    cbn [fmap option_fmap option_map fst snd]. now destruct (String.eqb l label).
Qed.

Lemma switchDataEnabled_involutive_witness :
  let data := addData "rx" 1%nat None (addData "tx" 0%nat None []) in
  data !! 1%nat = Some ("rx"%string, 1%nat, true) /\
  switchDataEnabled "rx" data !! 1%nat = Some ("rx"%string, 1%nat, false).
Proof.
  cbv zeta.
  assert (H : addData "rx" 1%nat None (addData "tx" 0%nat None []) !! 1%nat
              = Some ("rx"%string, 1%nat, true)) by reflexivity.
  split; [exact H|].
  exact (proj2 (proj2 (switchDataEnabled_involutive "rx" _)) 1%nat _ H).
Defined.

End ChartFacts.

(** ** The time range shortcuts *)

Module ShortcutFacts.
Import Shortcuts Jarmon JsNumFacts GetDataExtras.

(** X16. Whatever the time is, a shortcut gives a range that ends now
    and starts a positive whole number of milliseconds earlier, so a
    query over it is never refused by the range test of [getData];
    [custom] is not a shortcut. *)
Theorem shortcut_ranges_are_valid (selection : string) (now : Z) (r : num * num) :
  selectedRange timeRangeShortcuts selection (of_Z now) = Some r ->
  (exists dur : Z, 0 < dur /\ r = (of_Z (now - dur), of_Z now)) /\
  selection <> "custom"%string /\
  forall (self : RrdQuery) (ds : option dsid) (cf : option string)
         (G : gmap string num) (m : list part),
    (getData self r.1 (Number r.2) ds cf G).1 <> Throw (RangeError m).
Proof.
  intros H.
  assert (Hr : exists dur : Z, 0 < dur /\ r = (of_Z (now - dur), of_Z now)).
  { unfold timeRangeShortcuts in H. cbn [selectedRange] in H.
    repeat match type of H with
           | (if ?c then _ else _) = _ =>
               destruct c;
               [rewrite sub_Z in H; injection H as <-;
                eexists; split; [|reflexivity]; reflexivity|]
           end.
    discriminate H. }
  split; [exact Hr|]. split.
  - intros ->. vm_compute in H. discriminate H.
  - destruct Hr as (dur & Hdur & ->). cbn [fst snd]. intros self ds cf G m Hx.
    destruct (getData self (of_Z (now - dur)) (Number (of_Z now)) ds cf G)
      as [o G'] eqn:E. cbn [fst] in Hx. subst o.
    apply getData_error_kinds in E as [[Hge _]|[[_ Hds]|(_ & _ & Hty & _)]].
    + cbn [to_number] in Hge. unfold ge in Hge. rewrite le_Z in Hge.
      apply Z.leb_le in Hge. lia.
    + unfold getDS in Hds. destruct (dsId_of ds).
      * destruct (if Z.ltb i 0 then None else dss (rrd self) !! Z.to_nat i);
          discriminate Hds.
      * destruct (List.find _ (dss (rrd self))); discriminate Hds.
    + discriminate Hty.
Qed.

Lemma shortcut_ranges_are_valid_witness :
  selectedRange timeRangeShortcuts "last day" (of_Z 100000000)
    = Some (of_Z 13600000, of_Z 100000000) /\
  exists dur : Z, 0 < dur /\
    (of_Z 13600000, of_Z 100000000) = (of_Z (100000000 - dur), of_Z 100000000).
Proof.
  assert (H : selectedRange timeRangeShortcuts "last day" (of_Z 100000000)
              = Some (of_Z 13600000, of_Z 100000000)).
  { cbn. rewrite sub_Z. reflexivity. }
  split; [exact H|].
  exact (proj1 (shortcut_ranges_are_valid "last day" 100000000 _ H)).
Defined.

End ShortcutFacts.

(** ** The range preview *)

Module PreviewFacts.
Import Preview JsNumFacts.

Lemma at_index_middle (pre left : list Z) (p : Z) :
  at_index (pre ++ p :: left) (Z.of_nat (length pre)) = of_Z p.
Proof.
  unfold at_index. destruct (Z.ltb_spec (Z.of_nat (length pre)) 0) as [H|_]; [lia|].
  rewrite Nat2Z.id, list_lookup_middle by reflexivity. reflexivity.
Qed.

(** The index the loop ends with, read one place back, is the first
    period the range fits in, and the last period when it fits in none. *)
Lemma pickPeriod_spec (range : num) (left pre : list Z) :
  at_index (pre ++ left) (pickPeriod range left (Z.of_nat (length pre)) - 1)
  = match List.find (fun p => le range (of_Z p)) left with
    | Some p => of_Z p
    | None => at_index (pre ++ left) (Z.of_nat (length (pre ++ left)) - 1)
    end.
Proof.
  revert pre. induction left as [|p left IH]; intros pre.
  { cbn [pickPeriod List.find]. now rewrite app_nil_r. }
  cbn [pickPeriod List.find]. destruct (le range (of_Z p)).
  - replace (Z.of_nat (length pre) + 1 - 1) with (Z.of_nat (length pre)) by lia.
    apply at_index_middle.
  - specialize (IH (pre ++ [p])). rewrite <- app_assoc in IH. cbn [app] in IH.
    rewrite length_app in IH. cbn [length] in IH.
    replace (Z.of_nat (length pre + 1)) with (Z.of_nat (length pre) + 1) in IH by lia.
    exact IH.
Qed.

(** X17. The period that extends the timeline is the first of the
    eleven periods that is at least as long as the selected range, and
    a year when the range is longer than a year or is not a number; the
    index read is never outside the array. *)
Theorem preview_period (range : num) :
  at_index periods (pickPeriod range periods 0 - 1)
  = of_Z (default YEAR (List.find (fun p => le range (of_Z p)) periods)).
Proof.
  pose proof (pickPeriod_spec range periods []) as H. cbn [app length] in H.
  change (Z.of_nat 0) with 0 in H. rewrite H.
  destruct (List.find _ periods); reflexivity.
Qed.

Lemma preview_period_positive (range : num) :
  0 < default YEAR (List.find (fun p => le range (of_Z p)) periods).
Proof.
  destruct (List.find _ periods) as [p|] eqn:E; [|reflexivity].
  apply find_some in E as [Hin _]. cbn [default].
  unfold periods in Hin. cbn [In] in Hin.
  repeat (destruct Hin as [<-|Hin]; [reflexivity|]). contradiction.
Qed.

Lemma widen_whole (F L : Z) (d : dataset) :
  whole d ->
  exists F' L' : Z,
    widen (of_Z F, of_Z L) d = (of_Z F', of_Z L') /\ F' <= F /\ L <= L' /\
    (forall r f l, d = FromQuery r ->
       Jarmon.firstUpdated r = of_Z f -> Jarmon.lastUpdated r = of_Z l ->
       F' <= f /\ l <= L').
Proof.
  intros Hd. destruct d as [r|].
  - destruct Hd as [[f Hf] [l Hl]]. unfold widen.
    cbn [fst snd firstUpdated lastUpdated to_number]. rewrite Hf, Hl, !lt_Z.
    exists (if Z.ltb f F then f else F), (if Z.ltb L l then l else L).
    split; [now destruct (Z.ltb f F), (Z.ltb L l)|].
    destruct (Z.ltb_spec f F), (Z.ltb_spec L l);
      (split; [lia|]); (split; [lia|]);
      intros r' f' l' E Hf' Hl'; injection E as <-;
      rewrite Hf in Hf'; rewrite Hl in Hl';
      apply of_Z_inj in Hf', Hl'; lia.
  - exists F, L. split; [reflexivity|]. split; [lia|]. split; [lia|].
    intros r f l E. discriminate E.
Qed.

Lemma foldl_widen_whole (ds : list dataset) (F L : Z) :
  Forall whole ds ->
  exists F' L' : Z,
    foldl widen (of_Z F, of_Z L) ds = (of_Z F', of_Z L') /\ F' <= F /\ L <= L' /\
    (forall r f l, FromQuery r ∈ ds ->
       Jarmon.firstUpdated r = of_Z f -> Jarmon.lastUpdated r = of_Z l ->
       F' <= f /\ l <= L').
Proof.
  revert F L. induction ds as [|d ds IH]; intros F L Hds.
  { exists F, L. split; [reflexivity|]. split; [lia|]. split; [lia|].
    intros r f l Hin. inversion Hin. }
  apply Forall_cons in Hds as [Hd Hds].
  destruct (widen_whole F L d Hd) as (F1 & L1 & E1 & HF1 & HL1 & H1).
  destruct (IH F1 L1 Hds) as (F2 & L2 & E2 & HF2 & HL2 & H2).
  exists F2, L2. cbn [foldl]. rewrite E1. split; [exact E2|].
  split; [lia|]. split; [lia|].
  intros r f l Hin Hf Hl. apply elem_of_cons in Hin as [Hin|Hin].
  - destruct (H1 r f l (eq_sym Hin) Hf Hl). lia.
  - exact (H2 r f l Hin Hf Hl).
Qed.

(** The results of [getData] have whole-number update times. *)
Lemma query_result_whole (self : Jarmon.RrdQuery) (s : num) (e : jsval)
    (ds : option dsid) (cf : option string) (G G' : gmap string num)
    (res : Jarmon.Result) :
  Jarmon.getData self s e ds cf G = (Return res, G') -> whole (FromQuery res).
Proof.
  intros H. apply GetDataFacts.getData_Return in H
    as (d & g & r & r' & _ & _ & _ & _ & _ & _ & Hres & _).
  cbv zeta in Hres. rewrite Hres. cbn [whole Jarmon.firstUpdated Jarmon.lastUpdated].
  rewrite !sub_Z, !mul_Z, sub_Z, mul_Z. split; eexists; reflexivity.
Qed.

(** X18. With whole-number times, the first and last update times that
    the timeline is drawn between are at most the current time and at
    least 0, and they enclose the update times of every query result. *)
Theorem preview_updates_enclose (now : Z) (chartData : list (list dataset)) :
  Forall whole (concat chartData) ->
  exists F L : Z,
    updates (of_Z now) chartData = (of_Z F, of_Z L) /\ F <= now /\ 0 <= L /\
    forall (r : Jarmon.Result) (f l : Z),
      FromQuery r ∈ concat chartData ->
      Jarmon.firstUpdated r = of_Z f -> Jarmon.lastUpdated r = of_Z l ->
      F <= f /\ l <= L.
Proof. intros H. exact (foldl_widen_whole (concat chartData) now 0 H). Qed.

(** X19. With whole-number times, the timeline drawn under the charts
    never leaves the span between the first and the last update time,
    and the selected range lies inside it: the start of the timeline is
    at most the start of the selection and its end at least the end of
    the selection. *)
Theorem preview_brackets_selection (now startTime endTime : Z)
    (chartData : list (list dataset)) :
  Forall whole (concat chartData) ->
  let p := rangePreview (of_Z now) (of_Z startTime) (of_Z endTime) chartData in
  let firstUpdate := (updates (of_Z now) chartData).1 in
  let lastUpdate := (updates (of_Z now) chartData).2 in
  le firstUpdate (data_start p) = true /\
  le (data_start p) (from p) = true /\
  le (to p) (data_end p) = true /\
  le (data_end p) lastUpdate = true.
Proof.
  intros H. destruct (preview_updates_enclose now chartData H)
    as (F & L & E & _ & _ & _).
  cbv zeta. unfold rangePreview. cbn [data_start data_end from to].
  rewrite E. cbn [fst snd]. rewrite preview_period.
  pose proof (preview_period_positive
                (sub (min (of_Z endTime) (of_Z L)) (max (of_Z startTime) (of_Z F)))) as Hp.
  set (P := default YEAR _) in *.
  rewrite !max_Z, !min_Z, sub_Z, add_Z, max_Z, min_Z, !le_Z.
  repeat split; apply Z.leb_le; lia.
Qed.

Lemma preview_updates_enclose_witness :
  Forall whole (concat [[sample_set; Disabled]]) /\
  exists F L : Z,
    updates (of_Z 2000000) [[sample_set; Disabled]] = (of_Z F, of_Z L) /\
    F <= 2000000 /\ 0 <= L /\
    forall (r : Jarmon.Result) (f l : Z),
      FromQuery r ∈ concat [[sample_set; Disabled]] ->
      Jarmon.firstUpdated r = of_Z f -> Jarmon.lastUpdated r = of_Z l ->
      F <= f /\ l <= L.
Proof.
  assert (H : Forall whole (concat [[sample_set; Disabled]])).
  { cbn. repeat constructor; eexists; reflexivity. }
  split; [exact H|].
  exact (preview_updates_enclose 2000000 [[sample_set; Disabled]] H).
Defined.

Lemma preview_brackets_selection_witness :
  Forall whole (concat [[sample_set; Disabled]]) /\
  let p := rangePreview (of_Z 2000000) (of_Z 500000) (of_Z 900000)
             [[sample_set; Disabled]] in
  let firstUpdate := (updates (of_Z 2000000) [[sample_set; Disabled]]).1 in
  let lastUpdate := (updates (of_Z 2000000) [[sample_set; Disabled]]).2 in
  le firstUpdate (data_start p) = true /\
  le (data_start p) (from p) = true /\
  le (to p) (data_end p) = true /\
  le (data_end p) lastUpdate = true.
Proof.
  assert (H : Forall whole (concat [[sample_set; Disabled]])).
  { cbn. repeat constructor; eexists; reflexivity. }
  split; [exact H|].
  exact (preview_brackets_selection 2000000 500000 900000 [[sample_set; Disabled]] H).
Defined.

End PreviewFacts.

(** ** jarmon.Chart.fromRecipe: sharing of the remote queries *)

Module RecipeFacts.
Import Recipes.

Lemma find_app {A : Type} (f : A -> bool) (l l' : list A) :
  List.find f (l ++ l')
  = match List.find f l with Some x => Some x | None => List.find f l' end.
Proof.
  induction l as [|a l IH]; [reflexivity|]. cbn [app List.find].
  destruct (f a); [reflexivity|exact IH].
Qed.

Lemma find_none_iff {A : Type} (f : A -> bool) (l : list A) :
  List.find f l = None <-> forall x, x ∈ l -> f x = false.
Proof.
  split.
  - intros H x Hx. apply list_elem_of_In in Hx. exact (find_none f l H x Hx).
  - intros H. induction l as [|a l IH]; [reflexivity|]. cbn [List.find].
    rewrite (H a) by left. apply IH. intros x Hx. apply H. now right.
Qed.

Section Build.
Context {O : Type} (inherited : string -> bool).

Abbreviation item := (string * dsid * string * string)%type.
Implicit Types (st : store) (it : item) (seen : list item).

Lemma extends_refl st : extends st st.
Proof. exists []. now rewrite app_nil_r. Qed.

Lemma extends_trans st1 st2 st3 : extends st1 st2 -> extends st2 st3 -> extends st1 st3.
Proof. intros [m1 H1] [m2 H2]. exists (m1 ++ m2). now rewrite H2, H1, app_assoc. Qed.

Lemma serves_extends st st' it e :
  extends st st' -> serves inherited st it e -> serves inherited st' it e.
Proof.
  intros [more Hm] (Hl & Hen & Hds & H). repeat (split; [assumption|]).
  destruct (rrdQuery e.1.2) as [r|n]; [|exact H].
  destruct H as (q & Hq & Hu & Hp). exists q. split; [|now split].
  rewrite Hm. now apply lookup_app_l_Some.
Qed.

Lemma addItem_ok st seen (cd : list (string * RrdQueryDsProxy)) it :
  store_ok inherited st seen ->
  exists st1 p,
    addItem inherited (st, cd) it = (st1, cd ++ [(it.1.2, p)]) /\
    store_ok inherited st1 (seen ++ [it]) /\ extends st st1 /\
    serves inherited st1 it (it.1.2, p, true).
Proof.
  intros [Hag Hkeys Hfresh]. unfold addItem. cbn [fst snd].
  unfold lookupDict. destruct (dataDict st !! it.1.1.1) as [r|] eqn:Ed.
  - (* the URL has its object already *)
    eexists _, _. split; [reflexivity|]. split; [|split; [apply extends_refl|]].
    + constructor.
      * exact Hag.
      * intros u. rewrite map_app, elem_of_app. cbn [map].
        rewrite list_elem_of_singleton, Hkeys. split; [tauto|].
        intros [[Hu| ->] Hi]; [tauto|].
        apply Hkeys. now rewrite Ed.
      * intros r' q Hq. destruct (Hfresh r' q Hq) as (it0 & Hf & Hrest).
        exists it0. split; [|exact Hrest]. now rewrite find_app, Hf.
    + pose proof (proj1 (Hag _ _) Ed) as Hr.
      destruct (remotes st !! r) as [q|] eqn:Eq; [|discriminate Hr].
      repeat split. cbn [fst snd rrdQuery p_unit unit_of]. exists q.
      rewrite Eq. split; [reflexivity|]. split; [cbn in Hr; congruence|reflexivity].
  - destruct (inherited it.1.1.1) eqn:Ei.
    + (* the name is inherited: no object is created *)
      eexists _, _. split; [reflexivity|]. split; [|split; [apply extends_refl|]].
      * constructor.
        -- exact Hag.
        -- intros u. rewrite map_app, elem_of_app. cbn [map].
           rewrite list_elem_of_singleton, Hkeys. split; [tauto|].
           intros [[Hu| ->] Hi]; [tauto|congruence].
        -- intros r' q Hq. destruct (Hfresh r' q Hq) as (it0 & Hf & Hrest).
           exists it0. split; [|exact Hrest]. now rewrite find_app, Hf.
      * repeat split. exact Ei.
    + (* a new object *)
      eexists _, _. split; [reflexivity|].
      assert (Hnew : it.1.1.1 ∉ map (fun it => it.1.1.1) seen).
      { intros Hin. destruct (proj2 (Hkeys _) (conj Hin Ei)) as [? Hx].
        rewrite Ed in Hx. discriminate Hx. }
      split; [|split].
      * constructor; cbn [remotes dataDict].
        -- intros u r. destruct (decide (it.1.1.1 = u)) as [<-|Hne].
           ++ rewrite lookup_insert_eq. split.
              ** intros E. assert (r = length (remotes st)) as -> by congruence.
                 now rewrite list_lookup_middle.
              ** intros Hr. f_equal.
                 destruct (decide (r < length (remotes st))%nat) as [Hlt|Hge].
                 { rewrite lookup_app_l in Hr by exact Hlt.
                   apply Hag in Hr. rewrite Ed in Hr. discriminate Hr. }
                 destruct ((remotes st ++ _) !! r) eqn:El; [|discriminate Hr].
                 apply lookup_lt_Some in El. rewrite length_app in El.
                 cbn [length] in El. lia.
           ++ rewrite lookup_insert_ne by exact Hne. rewrite Hag. split.
              ** intros Hr. destruct (remotes st !! r) as [q|] eqn:Eq; [|discriminate Hr].
                 now rewrite (lookup_app_l_Some _ _ _ _ Eq).
              ** intros Hr.
                 destruct (decide (r < length (remotes st))%nat) as [Hlt|Hge].
                 { now rewrite lookup_app_l in Hr by exact Hlt. }
                 destruct (decide (r = length (remotes st))) as [->|Hne'].
                 { rewrite list_lookup_middle in Hr by reflexivity.
                   cbn in Hr. congruence. }
                 rewrite lookup_ge_None_2 in Hr; [discriminate Hr|].
                 rewrite length_app. cbn [length]. lia.
        -- intros u. rewrite map_app, elem_of_app. cbn [map].
           rewrite list_elem_of_singleton.
           destruct (decide (it.1.1.1 = u)) as [<-|Hne].
           ++ rewrite lookup_insert_eq. split; [intros _; tauto|eauto].
           ++ rewrite lookup_insert_ne by exact Hne. rewrite Hkeys.
              split; [tauto|]. intros [[Hu|Hu] Hi]; [tauto|congruence].
        -- intros r q Hq.
           destruct (decide (r < length (remotes st))%nat) as [Hlt|Hge].
           ++ rewrite lookup_app_l in Hq by exact Hlt.
              destruct (Hfresh r q Hq) as (it0 & Hf & Hrest).
              exists it0. split; [|exact Hrest]. now rewrite find_app, Hf.
           ++ assert (r = length (remotes st)) as ->.
              { apply lookup_lt_Some in Hq. rewrite length_app in Hq.
                cbn [length] in Hq. lia. }
              rewrite list_lookup_middle in Hq by reflexivity.
              assert (q = Remote.self (Remote.create it.1.1.1 it.2)) as -> by congruence.
              exists it. cbn [Remote.self Remote.create Remote.url Remote.rq_unit
                             Remote.lastUpdate Remote._download].
              split; [|repeat split].
              rewrite find_app.
              assert (Hf : List.find (fun it0 : item => String.eqb it0.1.1.1 it.1.1.1) seen
                           = None).
              { apply find_none_iff. intros x Hx. apply String.eqb_neq. intros E.
                apply Hnew. rewrite <- E. apply list_elem_of_In.
                apply (in_map (fun it0 : item => it0.1.1.1) seen x).
                now apply list_elem_of_In. }
              rewrite Hf. cbn [List.find]. now rewrite String.eqb_refl.
      * eexists. reflexivity.
      * repeat split. cbn [fst snd rrdQuery p_unit unit_of remotes].
        eexists. rewrite list_lookup_middle by reflexivity.
        split; [reflexivity|]. split; reflexivity.
Qed.

Lemma addItems_ok st seen (cd : list (string * RrdQueryDsProxy)) (items : list item) :
  store_ok inherited st seen ->
  exists st' new,
    foldl (addItem inherited) (st, cd) items = (st', cd ++ new) /\
    store_ok inherited st' (seen ++ items) /\ extends st st' /\
    Forall2 (fun it lp => serves inherited st' it (lp.1, lp.2, true)) items new.
Proof.
  revert st seen cd. induction items as [|it items IH]; intros st seen cd Hok.
  { exists st, []. rewrite !app_nil_r. split; [reflexivity|].
    split; [exact Hok|]. split; [apply extends_refl|constructor]. }
  destruct (addItem_ok st seen cd it Hok) as (st1 & p & E1 & Hok1 & Hext1 & Hs1).
  destruct (IH st1 (seen ++ [it]) (cd ++ [(it.1.2, p)]) Hok1)
    as (st' & new & E & Hok' & Hext' & Hall).
  exists st', ((it.1.2, p) :: new). cbn [foldl]. rewrite E1, E.
  split; [now rewrite <- app_assoc|].
  split; [now rewrite <- app_assoc in Hok'|].
  split; [exact (extends_trans _ _ _ Hext1 Hext')|].
  constructor; [|exact Hall]. exact (serves_extends _ _ _ _ Hext' Hs1).
Qed.

Lemma foldl_addData (chartData : list (string * RrdQueryDsProxy))
    (acc : list (string * RrdQueryDsProxy * bool)) :
  foldl (fun d e => Chart.addData e.1 e.2 None d) acc chartData
  = acc ++ map (fun e => (e.1, e.2, true)) chartData.
Proof.
  revert acc. induction chartData as [|e l IH]; intros acc; [now rewrite app_nil_r|].
  cbn [foldl map]. rewrite IH. unfold Chart.addData. now rewrite <- app_assoc.
Qed.

Lemma built_extends st st' (r : recipe O) (c : chart O) :
  extends st st' -> built inherited st r c -> built inherited st' r c.
Proof.
  intros Hext (Ht & Ho & Hall). repeat (split; [assumption|]).
  eapply Forall2_impl; [exact Hall|]. intros it e. now apply serves_extends.
Qed.

Lemma addRecipe_ok st (charts : list (chart O)) seen (r : recipe O) :
  store_ok inherited st seen ->
  exists st' cs,
    addRecipe inherited (st, charts) r = (st', charts ++ cs) /\
    store_ok inherited st' (seen ++ data r) /\ extends st st' /\
    Forall2 (built inherited st') (with_data [r]) cs.
Proof.
  intros Hok. unfold addRecipe. cbn [fst snd].
  destruct (addItems_ok st seen [] (data r) Hok) as (st' & new & E & Hok' & Hext & Hall).
  rewrite E. cbn [app].
  assert (Hlen : length new = length (data r)) by (symmetry; exact (Forall2_length _ _ _ Hall)).
  unfold with_data. cbn [List.filter]. rewrite <- Hlen.
  destruct (Nat.ltb 0 (length new)).
  - eexists st', [_]. split; [reflexivity|]. split; [exact Hok'|]. split; [exact Hext|].
    constructor; [|constructor]. split; [reflexivity|]. split; [reflexivity|].
    cbn [c_data]. rewrite foldl_addData. cbn [app].
    clear -Hall. induction Hall as [|it lp items new Hs Hall IH]; constructor; assumption.
  - exists st', []. rewrite app_nil_r. split; [reflexivity|].
    split; [exact Hok'|]. split; [exact Hext|constructor].
Qed.

Lemma with_data_app (rs rs' : list (recipe O)) :
  with_data (rs ++ rs') = with_data rs ++ with_data rs'.
Proof. apply List.filter_app. Qed.

Lemma addRecipes_ok (rs : list (recipe O)) st (charts : list (chart O)) seen :
  store_ok inherited st seen ->
  exists st' cs,
    foldl (addRecipe inherited) (st, charts) rs = (st', charts ++ cs) /\
    store_ok inherited st' (seen ++ rows_of rs) /\ extends st st' /\
    Forall2 (built inherited st') (with_data rs) cs.
Proof.
  revert st charts seen. induction rs as [|r rs IH]; intros st charts seen Hok.
  { exists st, []. unfold rows_of. cbn. rewrite !app_nil_r.
    split; [reflexivity|]. split; [exact Hok|]. split; [apply extends_refl|constructor]. }
  destruct (addRecipe_ok st charts seen r Hok) as (st1 & cs1 & E1 & Hok1 & Hext1 & Hb1).
  destruct (IH st1 (charts ++ cs1) (seen ++ data r) Hok1)
    as (st' & cs & E & Hok' & Hext' & Hb).
  exists st', (cs1 ++ cs). cbn [foldl]. rewrite E1, E.
  split; [now rewrite <- app_assoc|].
  split.
  { unfold rows_of in *. cbn [fmap list_fmap concat]. now rewrite <- app_assoc in Hok'. }
  split; [exact (extends_trans _ _ _ Hext1 Hext')|].
  change (r :: rs) with ([r] ++ rs). rewrite with_data_app.
  apply Forall2_app; [|exact Hb].
  eapply Forall2_impl; [exact Hb1|]. intros r0 c. now apply built_extends.
Qed.

Lemma store_ok_empty : store_ok inherited {| remotes := []; dataDict := ∅ |} [].
Proof.
  constructor; cbn [remotes dataDict].
  - intros u r. rewrite lookup_empty. split; intros H; discriminate H.
  - intros u. rewrite lookup_empty. split.
    + intros [? H]. discriminate H.
    + intros [H _]. inversion H.
  - intros r q H. discriminate H.
Qed.

Lemma fromRecipe_ok (recipes : list (recipe O)) :
  store_ok inherited (fromRecipe inherited recipes).1 (rows_of recipes) /\
  Forall2 (built inherited (fromRecipe inherited recipes).1) (with_data recipes)
          (fromRecipe inherited recipes).2.
Proof.
  unfold fromRecipe.
  destruct (addRecipes_ok recipes _ [] [] store_ok_empty) as (st' & cs & E & Hok & _ & Hb).
  rewrite E. cbn [fst snd app] in *. split; assumption.
Qed.

(** X20. fromRecipe creates exactly one RrdQueryRemote for every URL of
    the recipes that is not a name the dictionary inherits: the objects
    created have different URLs, and their URLs are those of the rows. *)
Theorem fromRecipe_one_remote_per_url (recipes : list (recipe O)) :
  NoDup (Remote.url <$> remotes (fromRecipe inherited recipes).1) /\
  forall u : string,
    u ∈ (Remote.url <$> remotes (fromRecipe inherited recipes).1)
    <-> (u ∈ map (fun it : item => it.1.1.1) (rows_of recipes) /\ inherited u = false).
Proof.
  destruct (fromRecipe_ok recipes) as [[Hag Hkeys _] _].
  set (st := (fromRecipe inherited recipes).1) in *. split.
  - apply NoDup_alt. intros i j u Hi Hj.
    rewrite list_lookup_fmap in Hi, Hj. apply Hag in Hi, Hj. congruence.
  - intros u. rewrite <- Hkeys, list_elem_of_lookup. split.
    + intros [r Hr]. rewrite list_lookup_fmap in Hr. apply Hag in Hr. eauto.
    + intros [r Hr]. exists r. rewrite list_lookup_fmap. now apply Hag.
Qed.


(** X22. An object that fromRecipe has created is a fresh
    RrdQueryRemote whose unit is that of the first row with its URL:
    the units of later rows with the same URL are not used. *)
Theorem fromRecipe_first_unit (recipes : list (recipe O)) (r : nat)
    (q : Remote.RrdQueryRemote) :
  remotes (fromRecipe inherited recipes).1 !! r = Some q ->
  exists it : item,
    List.find (fun it => String.eqb it.1.1.1 (Remote.url q)) (rows_of recipes) = Some it /\
    q = Remote.self (Remote.create it.1.1.1 it.2).
Proof.
  intros Hq. destruct (fromRecipe_ok recipes) as [[_ _ Hfresh] _].
  destruct (Hfresh r q Hq) as (it & Hf & Hu & Hl & Hd).
  exists it. split; [exact Hf|].
  apply find_some in Hf as [_ Heq]. apply String.eqb_eq in Heq.
  destruct q as [u un lu dl]. cbn in *. subst. reflexivity.
Qed.

Lemma rows_of_with_data (recipes : list (recipe O)) :
  rows_of (with_data recipes) = rows_of recipes.
Proof.
  unfold rows_of, with_data. induction recipes as [|r rs IH]; [reflexivity|].
  cbn [List.filter fmap list_fmap concat]. destruct (data r) as [|it l] eqn:E.
  - cbn [length Nat.ltb Nat.leb app]. exact IH.
  - cbn [length Nat.ltb Nat.leb]. cbn [fmap list_fmap concat]. rewrite E.
    f_equal. exact IH.
Qed.

Lemma built_rows st (rs : list (recipe O)) (cs : list (chart O)) :
  Forall2 (built inherited st) rs cs ->
  Forall2 (serves inherited st) (rows_of rs) (concat (c_data <$> cs)).
Proof.
  unfold rows_of. induction 1 as [|r c rs cs (_ & _ & Hrc) _ IH]; [constructor|].
  cbn [fmap list_fmap concat]. now apply Forall2_app.
Qed.

(** X23. Data sources that name the same URL share one query object,
    whatever charts they are on, and show the same unit: the proxies of
    two rows with the same URL refer to the same object. *)
Theorem fromRecipe_rows_share (recipes : list (recipe O)) (i j : nat)
    (it1 it2 : item) (e1 e2 : string * RrdQueryDsProxy * bool) :
  rows_of recipes !! i = Some it1 ->
  rows_of recipes !! j = Some it2 ->
  concat (c_data <$> (fromRecipe inherited recipes).2) !! i = Some e1 ->
  concat (c_data <$> (fromRecipe inherited recipes).2) !! j = Some e2 ->
  it1.1.1.1 = it2.1.1.1 ->
  rrdQuery e1.1.2 = rrdQuery e2.1.2 /\ p_unit e1.1.2 = p_unit e2.1.2.
Proof.
  intros Hi Hj Hei Hej Hu.
  destruct (fromRecipe_ok recipes) as [[Hag Hkeys _] Hb].
  apply built_rows in Hb. rewrite rows_of_with_data in Hb.
  set (st := (fromRecipe inherited recipes).1) in *.
  pose proof (Forall2_lookup_lr _ _ _ _ _ _ Hb Hi Hei) as (_ & _ & _ & H1).
  pose proof (Forall2_lookup_lr _ _ _ _ _ _ Hb Hj Hej) as (_ & _ & _ & H2).
  assert (Hown : forall r q, remotes st !! r = Some q ->
                 dataDict st !! Remote.url q = Some r /\ inherited (Remote.url q) = false).
  { intros r q Hq. assert (Hd : dataDict st !! Remote.url q = Some r).
    { apply Hag. now rewrite Hq. }
    split; [exact Hd|]. apply Hkeys. now rewrite Hd. }
  destruct (rrdQuery e1.1.2) as [r1|n1], (rrdQuery e2.1.2) as [r2|n2].
  - destruct H1 as (q1 & Hq1 & Hu1 & Hp1), H2 as (q2 & Hq2 & Hu2 & Hp2).
    destruct (Hown _ _ Hq1) as [Hd1 _], (Hown _ _ Hq2) as [Hd2 _].
    rewrite Hu1 in Hd1. rewrite Hu2, <- Hu in Hd2.
    assert (r1 = r2) as -> by congruence.
    assert (q1 = q2) as -> by congruence. split; congruence.
  - destruct H1 as (q1 & Hq1 & Hu1 & _), H2 as (-> & Hi2 & _).
    destruct (Hown _ _ Hq1) as [_ Hn]. congruence.
  - destruct H2 as (q2 & Hq2 & Hu2 & _), H1 as (-> & Hi1 & _).
    destruct (Hown _ _ Hq2) as [_ Hn]. congruence.
  - destruct H1 as (-> & _ & ->), H2 as (-> & _ & ->). split; congruence.
Qed.

End Build.

Lemma fromRecipe_first_unit_witness :
  let q := Remote.self (Remote.create "load/load.rrd" "") in
  remotes (fromRecipe inherited_names sample_recipes).1 !! 0%nat = Some q /\
  exists it : string * dsid * string * string,
    List.find (fun it => String.eqb it.1.1.1 (Remote.url q)) (rows_of sample_recipes)
      = Some it /\
    q = Remote.self (Remote.create it.1.1.1 it.2).
Proof.
  cbv zeta.
  assert (H : remotes (fromRecipe inherited_names sample_recipes).1 !! 0%nat
              = Some (Remote.self (Remote.create "load/load.rrd" "")))
    by (vm_compute; reflexivity).
  split; [exact H|].
  exact (fromRecipe_first_unit inherited_names sample_recipes 0 _ H).
Defined.

Lemma fromRecipe_rows_share_witness :
  let p2 := {| rrdQuery := Own 0; dsId := DsName "midterm"; p_unit := Some ""%string |} in
  let p3 := {| rrdQuery := Own 0; dsId := DsName "longterm"; p_unit := Some ""%string |} in
  rows_of sample_recipes !! 1%nat
    = Some ("load/load.rrd", DsName "midterm", "Medium Term", "procs")%string /\
  rows_of sample_recipes !! 2%nat
    = Some ("load/load.rrd", DsName "longterm", "Long Term", "procs")%string /\
  concat (c_data <$> (fromRecipe inherited_names sample_recipes).2) !! 1%nat
    = Some ("Medium Term"%string, p2, true) /\
  concat (c_data <$> (fromRecipe inherited_names sample_recipes).2) !! 2%nat
    = Some ("Long Term"%string, p3, true) /\
  rrdQuery p2 = rrdQuery p3 /\ p_unit p2 = p_unit p3.
Proof.
  cbv zeta.
  assert (H1 : rows_of sample_recipes !! 1%nat
               = Some ("load/load.rrd", DsName "midterm", "Medium Term", "procs")%string)
    by reflexivity.
  assert (H2 : rows_of sample_recipes !! 2%nat
               = Some ("load/load.rrd", DsName "longterm", "Long Term", "procs")%string)
    by reflexivity.
  assert (H3 : concat (c_data <$> (fromRecipe inherited_names sample_recipes).2) !! 1%nat
               = Some ("Medium Term"%string,
                       {| rrdQuery := Own 0; dsId := DsName "midterm";
                          p_unit := Some ""%string |}, true))
    by (vm_compute; reflexivity).
  assert (H4 : concat (c_data <$> (fromRecipe inherited_names sample_recipes).2) !! 2%nat
               = Some ("Long Term"%string,
                       {| rrdQuery := Own 0; dsId := DsName "longterm";
                          p_unit := Some ""%string |}, true))
    by (vm_compute; reflexivity).
  split; [exact H1|]. split; [exact H2|]. split; [exact H3|]. split; [exact H4|].
  exact (fromRecipe_rows_share inherited_names sample_recipes 1 2 _ _ _ _
           H1 H2 H3 H4 eq_refl).
Defined.

End RecipeFacts.
